(** * apns: the binary provider-protocol encoder of [notification.go]

    A shallow embedding of [notification.go] (package [apns]) and the
    properties of its encoder.  Go values are modelled as follows:

    - a [string] is a sequence of bytes: Rocq's [string];
    - a [[]byte] is a [list Z] of values in [0, 256);
    - [int], [uint8], [uint16], [uint32] are [Z]; every conversion
      [uintN(x)] is written out as the wrap-around [x mod 2^N];
    - a pointer that may be [nil] ([*int], [*time.Time], [*Payload]) and a
      map or slice that may be [nil] are [option]s;
    - [map[string]interface{}] is a [gmap string GoValue];
    - [error] is the inductive [GoError]; a run-time panic is an outcome of
      its own. *)

From Stdlib Require Import ZArith List String Ascii Lia.
From stdpp Require Import gmap strings.
Import ListNotations.

#[local] Set Warnings "-register-all".

Local Open Scope string_scope.
Local Open Scope list_scope.
Local Open Scope Z_scope.

(** ** Fixed-width integers and [encoding/binary]'s big-endian order *)

Module binary.

(** The conversions [uint8(x)], [uint16(x)], [uint32(x)] of an integer. *)
Definition uint8 (x : Z) : Z := x mod 2 ^ 8.
Definition uint16 (x : Z) : Z := x mod 2 ^ 16.
Definition uint32 (x : Z) : Z := x mod 2 ^ 32.

(** [byte(v >> k)]: the byte of [v] that starts at bit [k]. *)
Definition byte_at (v k : Z) : Z := uint8 (Z.shiftr v k).

(** [BigEndian.PutUint16] and [BigEndian.PutUint32]. *)
Definition PutUint16 (v : Z) : list Z := [byte_at v 8; byte_at v 0].
Definition PutUint32 (v : Z) : list Z :=
  [byte_at v 24; byte_at v 16; byte_at v 8; byte_at v 0].

(** What [binary.Write(buf, binary.BigEndian, data)] appends to [buf], by
    the type of [data].  A [bytes.Buffer] never refuses a write, so the
    result that [ToBinary] drops is always [nil]. *)
Inductive data : Type :=
| U8 (v : Z)
| U16 (v : Z)
| U32 (v : Z)
| Bytes (bs : list Z).

Definition encode (d : data) : list Z :=
  match d with
  | U8 v => [v]
  | U16 v => PutUint16 v
  | U32 v => PutUint32 v
  | Bytes bs => bs
  end.

Definition Write (buf : list Z) (d : data) : list Z := buf ++ encode d.

End binary.

(** ** Errors *)

Inductive GoError : Type :=
| errors_New (msg : string)
| fmt_Errorf_s (prefix : string) (cause : GoError)
| hex_InvalidByteError (b : ascii)
| hex_ErrLength
| json_Error (msg : string).

(** ** [encoding/hex] *)

Module hex.

(** [fromHexChar]: the value of one hexadecimal digit, either case. *)
Definition fromHexChar (c : ascii) : option Z :=
  let n := Z.of_N (N_of_ascii c) in
  if (48 <=? n) && (n <=? 57) then Some (n - 48)
  else if (97 <=? n) && (n <=? 102) then Some (n - 97 + 10)
  else if (65 <=? n) && (n <=? 70) then Some (n - 65 + 10)
  else None.

(** [hex.DecodeString]: two digits a byte, left to right.  The first bad
    digit stops the loop with [InvalidByteError]; a lone last digit gives
    [ErrLength].  With the error come the bytes decoded before it. *)
Fixpoint DecodeString (s : string) : list Z * option GoError :=
  match s with
  | EmptyString => ([], None)
  | String p EmptyString =>
      match fromHexChar p with
      | None => ([], Some (hex_InvalidByteError p))
      | Some _ => ([], Some hex_ErrLength)
      end
  | String p (String q rest) =>
      match fromHexChar p with
      | None => ([], Some (hex_InvalidByteError p))
      | Some a =>
          match fromHexChar q with
          | None => ([], Some (hex_InvalidByteError q))
          | Some b =>
              let '(bs, err) := DecodeString rest in
              (Z.lor (Z.shiftl a 4) b :: bs, err)
          end
      end
  end.

(** A string of hexadecimal digits, an even number of them. *)
Definition digits : string := "0123456789abcdefABCDEF".

Definition is_digit (c : ascii) : bool :=
  existsb (Ascii.eqb c) (list_ascii_of_string digits).

Fixpoint valid (s : string) : bool :=
  match s with
  | EmptyString => true
  | String _ EmptyString => false
  | String p (String q rest) => is_digit p && is_digit q && valid rest
  end.

End hex.

(** ** The data model *)

(** A slice that may be [nil]; [len] of a [nil] slice is 0. *)
Definition slice (A : Type) : Type := option (list A).

Definition len {A : Type} (s : slice A) : Z :=
  match s with
  | None => 0
  | Some l => Z.of_nat (List.length l)
  end.

(** [len(b)] of a byte slice, [nil] or not. *)
Definition len_bytes (b : list Z) : Z := Z.of_nat (List.length b).

(** [len(s)] of a string: its number of bytes. *)
Definition strlen (s : string) : Z := Z.of_nat (String.length s).

Module Alert.

Record t : Type := mk {
  Body : string;
  Title : string;
  Action : string;
  LocKey : string;
  LocArgs : slice string;
  ActionLocKey : string;
  LaunchImage : string
}.

Definition isZero (a : t) : bool :=
  (strlen (Body a) =? 0) && (strlen (LocKey a) =? 0) && (len (LocArgs a) =? 0)
  && (strlen (ActionLocKey a) =? 0) && (strlen (LaunchImage a) =? 0).

(** The zero value [Alert{}]. *)
Definition zero : t := mk "" "" "" "" None "" "".

End Alert.

(** The values an [interface{}] holds in this package: what callers store
    as custom values and what the serializers store themselves. *)
Inductive GoValue : Type :=
| VNil
| VBool (b : bool)
| VInt (i : Z)
| VIntPtr (pointee : Z)
| VString (s : string)
| VStrings (l : slice string)
| VAlert (a : Alert.t)
| VList (l : list GoValue)
| VMap (m : gmap string GoValue).

(** [json.Marshal], which this package calls and does not define. *)
Definition marshaller : Type := GoValue -> list Z * option GoError.

Module APS.

Record t : Type := mk {
  Alert : Alert.t;
  Badge : option Z;
  Sound : string;
  ContentAvailable : Z;
  URLArgs : slice string;
  Category : string
}.

Definition serializeForAPNS (aps : t) : gmap string GoValue :=
  let data : gmap string GoValue := ∅ in
  let data :=
    if negb (Alert.isZero (Alert aps))
    then <["alert" := VAlert (Alert aps)]> data else data in
  let data :=
    match Badge aps with
    | Some b => <["badge" := VIntPtr b]> data
    | None => data
    end in
  let data :=
    if negb (String.eqb (Sound aps) "")
    then <["sound" := VString (Sound aps)]> data else data in
  let data :=
    if negb (ContentAvailable aps =? 0)
    then <["content-available" := VInt (ContentAvailable aps)]> data
    else data in
  let data :=
    if negb (String.eqb (Category aps) "")
    then <["category" := VString (Category aps)]> data else data in
  let data :=
    if match URLArgs aps with None => false | Some _ => true end
       && negb (len (URLArgs aps) =? 0)
    then <["url-args" := VStrings (URLArgs aps)]> data else data in
  data.

Definition MarshalJSONForAPNS (json_Marshal : marshaller) (aps : t)
    : list Z * option GoError :=
  json_Marshal (VMap (serializeForAPNS aps)).

(** The zero value [APS{}]. *)
Definition zero : t := mk Alert.zero None "" 0 None "".

End APS.

(** How a call ends: it returns, or it panics. *)
Inductive outcome (A : Type) : Type :=
| Returned (a : A)
| Panicked (msg : string).
Arguments Returned {A} a.
Arguments Panicked {A} msg.

Module Payload.

(** [CustomValues] is [None] for the [nil] map of the zero value
    [Payload{}]. *)
Record t : Type := mk {
  APS : APS.t;
  MDM : string;
  CustomValues : option (gmap string GoValue)
}.

(** [for k, v := range src { data[k] = v }]; ranging over a [nil] map
    runs the body no times. *)
Definition range_assign (src : option (gmap string GoValue))
    (data : gmap string GoValue) : gmap string GoValue :=
  match src with
  | None => data
  | Some m => map_fold (fun k v d => <[k := v]> d) data m
  end.

Definition serializeForAPNS (p : t) : gmap string GoValue :=
  let data : gmap string GoValue := ∅ in
  let data := range_assign (CustomValues p) data in
  if negb (strlen (MDM p) =? 0)
  then <["mdm" := VString (MDM p)]> data
  else <["aps" := VMap (APS.serializeForAPNS (APS p))]> data.

Definition MarshalJSONForAPNS (json_Marshal : marshaller) (p : t)
    : list Z * option GoError :=
  json_Marshal (VMap (serializeForAPNS p)).

(** The method has a pointer receiver: it returns the payload as the
    call leaves it, next to the error it answers.  Assigning into a
    [nil] map panics. *)
Definition SetCustomValue (key : string) (value : GoValue) (p : t)
    : outcome (t * option GoError) :=
  if String.eqb key "aps"
  then Returned (p, Some (errors_New "cannot assign a custom APS value in payload"))
  else
    match CustomValues p with
    | None => Panicked "assignment to entry in nil map"
    | Some m => Returned (mk (APS p) (MDM p) (Some (<[key := value]> m)), None)
    end.

End Payload.

Definition NewPayload : Payload.t := Payload.mk APS.zero "" (Some ∅).

Module time.

(** A [time.Time], seen through [Unix()]: its seconds since the epoch,
    an [int64]. *)
Record Time : Type := mk { Unix : Z }.

End time.

Definition PriorityImmediate : Z := 10.
Definition PriorityPowerConserve : Z := 5.

Definition commandID : Z := 2.

Definition deviceTokenItemID : Z := 1.
Definition payloadItemID : Z := 2.
Definition notificationIdentifierItemID : Z := 3.
Definition expirationDateItemID : Z := 4.
Definition priorityItemID : Z := 5.

Definition deviceTokenItemLength : Z := 32.
Definition notificationIdentifierItemLength : Z := 4.
Definition expirationDateItemLength : Z := 4.
Definition priorityItemLength : Z := 1.

Module Notification.

Record t : Type := mk {
  ID : string;
  DeviceToken : string;
  Identifier : Z;
  Expiration : option time.Time;
  Priority : Z;
  Payload : option Payload.t
}.

(** [buf.Len()] of a [bytes.Buffer] nothing was read from. *)
Definition buf_Len (buf : list Z) : Z := Z.of_nat (List.length buf).

Definition ToBinary (json_Marshal : marshaller) (n : t)
    : list Z * option GoError :=
  let b : list Z := [] in
  let '(binTok, err) := hex.DecodeString (DeviceToken n) in
  match err with
  | Some e => (b, Some (fmt_Errorf_s "convert token to hex error: " e))
  | None =>
      let j : list Z :=
        match Payload n with
        | Some p => fst (Payload.MarshalJSONForAPNS json_Marshal p)
        | None => []
        end in
      let buf := b in
      (* Token *)
      let buf := binary.Write buf (binary.U8 (binary.uint8 deviceTokenItemID)) in
      let buf := binary.Write buf (binary.U16 (binary.uint16 deviceTokenItemLength)) in
      let buf := binary.Write buf (binary.Bytes binTok) in
      (* Payload *)
      let buf := binary.Write buf (binary.U8 (binary.uint8 payloadItemID)) in
      let buf := binary.Write buf (binary.U16 (binary.uint16 (len_bytes j))) in
      let buf := binary.Write buf (binary.Bytes j) in
      (* Identifier *)
      let buf := binary.Write buf (binary.U8 (binary.uint8 notificationIdentifierItemID)) in
      let buf := binary.Write buf (binary.U16 (binary.uint16 notificationIdentifierItemLength)) in
      let buf := binary.Write buf (binary.U32 (binary.uint32 (Identifier n))) in
      (* Expiry *)
      let buf := binary.Write buf (binary.U8 (binary.uint8 expirationDateItemID)) in
      let buf := binary.Write buf (binary.U16 (binary.uint16 expirationDateItemLength)) in
      let buf :=
        match Expiration n with
        | None => binary.Write buf (binary.U32 (binary.uint32 0))
        | Some e => binary.Write buf (binary.U32 (binary.uint32 (time.Unix e)))
        end in
      (* Priority *)
      let buf := binary.Write buf (binary.U8 (binary.uint8 priorityItemID)) in
      let buf := binary.Write buf (binary.U16 (binary.uint16 priorityItemLength)) in
      let buf := binary.Write buf (binary.U8 (binary.uint8 (Priority n))) in
      let framebuf : list Z := [] in
      let framebuf := binary.Write framebuf (binary.U8 (binary.uint8 commandID)) in
      let framebuf := binary.Write framebuf (binary.U32 (binary.uint32 (buf_Len buf))) in
      let framebuf := binary.Write framebuf (binary.Bytes buf) in
      (framebuf, None)
  end.

End Notification.

Definition NewNotification : Notification.t :=
  Notification.mk "" "" 0 None 0 (Some NewPayload).

(** ** Reading a frame back

    The package only encodes.  The readers below follow the wire format
    the frame is written for: a command byte, a 4-byte big-endian length,
    then items of a 1-byte ID, a 2-byte big-endian length and that many
    bytes of value. *)

Module wire.

Definition Uint16 (bs : list Z) : Z :=
  match bs with
  | [b0; b1] => b0 * 2 ^ 8 + b1
  | _ => 0
  end.

Definition Uint32 (bs : list Z) : Z :=
  match bs with
  | [b0; b1; b2; b3] => b0 * 2 ^ 24 + b1 * 2 ^ 16 + b2 * 2 ^ 8 + b3
  | _ => 0
  end.

Record Item : Type := mkItem {
  item_id : Z;
  item_length : Z;
  item_value : list Z
}.

(** An item as it lies on the wire. *)
Definition render (it : Item) : list Z :=
  item_id it :: binary.PutUint16 (item_length it) ++ item_value it.

Definition render_all (its : list Item) : list Z := concat (map render its).

(** Items are read one after the other until the bytes run out; an item
    whose length field promises more bytes than are left is an error, and
    so is a header cut short. *)
Fixpoint read_items (fuel : nat) (bs : list Z) : option (list Item) :=
  match bs with
  | [] => Some []
  | id :: hi :: lo :: rest =>
      match fuel with
      | O => None
      | S fuel' =>
          let n := Uint16 [hi; lo] in
          if Z.of_nat (List.length rest) <? n then None
          else
            match read_items fuel' (skipn (Z.to_nat n) rest) with
            | Some its => Some (mkItem id n (firstn (Z.to_nat n) rest) :: its)
            | None => None
            end
      end
  | _ => None
  end.

(** Every item takes at least three bytes, so the number of bytes is
    fuel enough. *)
Definition parse_items (bs : list Z) : option (list Item) :=
  read_items (List.length bs) bs.

Definition parse_frame (f : list Z) : option (Z * list Item) :=
  match f with
  | cmd :: b0 :: b1 :: b2 :: b3 :: rest =>
      if Uint32 [b0; b1; b2; b3] =? Z.of_nat (List.length rest)
      then
        match parse_items rest with
        | Some its => Some (cmd, its)
        | None => None
        end
      else None
  | _ => None
  end.

(** The fields of a frame by their place in it. *)
Definition frame_command (f : list Z) : Z := nth 0 f 0.
Definition frame_length (f : list Z) : Z := Uint32 (firstn 4 (skipn 1 f)).
Definition frame_items (f : list Z) : list Z := skipn 5 f.

(** The device-token item comes first in the item buffer. *)
Definition token_item_id (f : list Z) : Z := nth 0 (frame_items f) 0.
Definition token_item_length (f : list Z) : Z :=
  Uint16 (firstn 2 (skipn 1 (frame_items f))).
Definition token_item_value (size : nat) (f : list Z) : list Z :=
  firstn size (skipn 3 (frame_items f)).

(** The priority item (4 bytes) comes last, the expiration item (7
    bytes) before it. *)
Definition from_end (k : nat) (f : list Z) : list Z :=
  skipn (List.length f - k) f.
Definition expiration_item (f : list Z) : list Z := firstn 7 (from_end 11 f).
Definition expiration_value (f : list Z) : list Z := skipn 3 (expiration_item f).
Definition priority_item (f : list Z) : list Z := from_end 4 f.
Definition priority_value (f : list Z) : list Z := skipn 3 (priority_item f).

Definition is_byte (b : Z) : Prop := 0 <= b < 256.

End wire.

(** ** What a frame is expected to hold *)

(** The JSON bytes [ToBinary] puts in the payload item: what
    [MarshalJSONForAPNS] answers, its error dropped, and no bytes for a
    [nil] payload. *)
Definition payload_json (json_Marshal : marshaller) (n : Notification.t) : list Z :=
  match Notification.Payload n with
  | Some p => fst (Payload.MarshalJSONForAPNS json_Marshal p)
  | None => []
  end.

(** The seconds written for the expiration: 0 when none is set. *)
Definition expiration_seconds (n : Notification.t) : Z :=
  match Notification.Expiration n with
  | Some e => time.Unix e
  | None => 0
  end.

(** The five items of a notification whose token decodes to [tok], in the
    order of the wire format. *)
Definition items_of (json_Marshal : marshaller) (n : Notification.t)
    (tok : list Z) : list wire.Item :=
  let j := payload_json json_Marshal n in
  [ wire.mkItem 1 32 tok;
    wire.mkItem 2 (binary.uint16 (Z.of_nat (List.length j))) j;
    wire.mkItem 3 4 (binary.PutUint32 (binary.uint32 (Notification.Identifier n)));
    wire.mkItem 4 4 (binary.PutUint32 (binary.uint32 (expiration_seconds n)));
    wire.mkItem 5 1 [binary.uint8 (Notification.Priority n)] ].

(** ** Sample inputs *)

(** Two marshallers for the closed examples: one answers the two bytes of
    [{}], the other refuses, as [json.Marshal] does on a value it cannot
    encode.  The theorems hold for every marshaller. *)
Definition marshal_braces : marshaller := fun _ => ([123; 125], None).
Definition marshal_refuses : marshaller :=
  fun _ => ([], Some (json_Error "json: unsupported type")).

(** A token of 64 digits, 32 bytes once decoded. *)
Definition token32 : string :=
  "000102030405060708090a0b0c0d0e0f101112131415161718191A1B1C1D1E1F".

Definition sample : Notification.t :=
  Notification.mk "n1" token32 7 (Some (time.mk 1700000000)) 10 (Some NewPayload).

(** A token of two digits, one byte once decoded, and no payload. *)
Definition short_token : Notification.t :=
  Notification.mk "" "ab" 0 None 0 None.

(** A token of [2 * k] digits [0]. *)
Fixpoint zeros (k : nat) : string :=
  match k with
  | O => ""
  | S k' => String "0" (String "0" (zeros k'))
  end.

(** A token that decodes to [2^32] bytes, and no payload. *)
Definition huge_token : Notification.t :=
  Notification.mk "" (zeros (Z.to_nat (2 ^ 32))) 0 None 0 None.

(** ** The device-token item, sized by the token *)

(** The item holds ID 1, the byte count of the decoded token as its
    length, and the decoded bytes. *)
Definition token_item_sized_by_token (json_Marshal : marshaller)
    (n : Notification.t) : Prop :=
  forall tok : list Z,
    hex.DecodeString (Notification.DeviceToken n) = (tok, None) ->
    let f := fst (Notification.ToBinary json_Marshal n) in
    wire.token_item_id f = 1
    /\ wire.token_item_length f = Z.of_nat (List.length tok)
    /\ wire.token_item_value (List.length tok) f = tok.

(** ** The outer frame, with the exact length of its items *)

Definition frame_with_exact_length (json_Marshal : marshaller)
    (n : Notification.t) : Prop :=
  forall tok : list Z,
    hex.DecodeString (Notification.DeviceToken n) = (tok, None) ->
    exists f : list Z,
      Notification.ToBinary json_Marshal n = (f, None)
      /\ wire.frame_command f = 2
      /\ wire.frame_length f = Z.of_nat (List.length (wire.frame_items f))
      /\ wire.frame_items f = wire.render_all (items_of json_Marshal n tok)
      /\ map wire.item_id (items_of json_Marshal n tok) = [1; 2; 3; 4; 5].

(** The bytes [token32] decodes to. *)
Definition bytes32 : list Z :=
  [0; 1; 2; 3; 4; 5; 6; 7; 8; 9; 10; 11; 12; 13; 14; 15;
   16; 17; 18; 19; 20; 21; 22; 23; 24; 25; 26; 27; 28; 29; 30; 31].

(** A token that is no hexadecimal string. *)
Definition bad_token : Notification.t :=
  Notification.mk "" "zz" 0 None 0 (Some NewPayload).

(** A priority that does not fit a byte, and an expiration before the
    epoch. *)
Definition odd_fields : Notification.t :=
  Notification.mk "" token32 0 (Some (time.mk (-1))) 300 None.

(** ** Reading back what was written *)

(** The ID and the value of each item read. *)
Definition fields (its : list wire.Item) : list (Z * list Z) :=
  map (fun it => (wire.item_id it, wire.item_value it)) its.

(** What the encoder was given to write: the decoded token, the JSON
    bytes, and the identifier, expiration and priority in their wire
    sizes. *)
Definition inputs_of (json_Marshal : marshaller) (n : Notification.t)
    : list (Z * list Z) :=
  [ (1, fst (hex.DecodeString (Notification.DeviceToken n)));
    (2, payload_json json_Marshal n);
    (3, binary.PutUint32 (binary.uint32 (Notification.Identifier n)));
    (4, binary.PutUint32 (binary.uint32 (expiration_seconds n)));
    (5, [binary.uint8 (Notification.Priority n)]) ].

(** Reading the frame of a notification item by item gives its inputs
    back. *)
Definition reparse_recovers (json_Marshal : marshaller) (n : Notification.t)
    : Prop :=
  forall f : list Z,
    Notification.ToBinary json_Marshal n = (f, None) ->
    exists its : list wire.Item,
      wire.parse_frame f = Some (2, its)
      /\ fields its = inputs_of json_Marshal n.

(** An item whose length field says how long its value is. *)
Definition well_sized (it : wire.Item) : Prop :=
  0 <= wire.item_length it < 2 ^ 16
  /\ Z.of_nat (List.length (wire.item_value it)) = wire.item_length it.

(** A marshaller that answers [2^16] bytes. *)
Definition marshal_64k : marshaller := fun _ => (repeat 255 (Z.to_nat (2 ^ 16)), None).

(** ** Alerts *)

(** An alert is empty exactly when its body, localization key,
    localization arguments and action-localization key are unset. *)
Definition empty_by_four_fields (a : Alert.t) : Prop :=
  Alert.isZero a = true
  <-> Alert.Body a = "" /\ Alert.LocKey a = "" /\ len (Alert.LocArgs a) = 0
      /\ Alert.ActionLocKey a = "".

(** An alert with a launch image and nothing else. *)
Definition launch_image_only : Alert.t :=
  Alert.mk "" "" "" "" None "" "Default.png".

(** ** APS values *)

(** The keys [APS.serializeForAPNS] may write. *)
Definition aps_keys : list string :=
  ["alert"; "badge"; "sound"; "content-available"; "category"; "url-args"].

(** An APS value with a sound and nothing else, and one with the badge 0
    and nothing else. *)
Definition sound_only : APS.t := APS.mk Alert.zero None "default" 0 None "".
Definition badge_zero : APS.t := APS.mk Alert.zero (Some 0) "" 0 None "".

(** ** Payloads *)

(** The custom values of a payload, none for a [nil] map. *)
Definition custom_values (p : Payload.t) : gmap string GoValue :=
  match Payload.CustomValues p with
  | Some m => m
  | None => ∅
  end.

(** With an MDM string the mapping has ["mdm"] and no ["aps"]; without
    one it has ["aps"]. *)
Definition mdm_excludes_aps (p : Payload.t) : Prop :=
  let data := Payload.serializeForAPNS p in
  (Payload.MDM p <> "" ->
   data !! "mdm" = Some (VString (Payload.MDM p)) /\ data !! "aps" = None)
  /\ (Payload.MDM p = "" ->
      data !! "aps" = Some (VMap (APS.serializeForAPNS (Payload.APS p)))).

(** A payload whose custom values were given an ["aps"] key directly:
    [CustomValues] is an exported field. *)
Definition custom_aps : Payload.t :=
  Payload.mk APS.zero "X" (Some {["aps" := VBool true]}).

(** The payloads a caller gets from [NewPayload] by setting the fields
    [APS] and [MDM] and calling [SetCustomValue]. *)
Inductive built : Payload.t -> Prop :=
| built_new : built NewPayload
| built_fields (p : Payload.t) (aps : APS.t) (mdm : string) :
    built p -> built (Payload.mk aps mdm (Payload.CustomValues p))
| built_set (p p' : Payload.t) (key : string) (value : GoValue)
    (err : option GoError) :
    built p ->
    Payload.SetCustomValue key value p = Returned (p', err) ->
    built p'.

(** [SetCustomValue] refuses ["aps"] and stores every other key. *)
Definition stores_unless_aps (key : string) (value : GoValue) (p : Payload.t)
    : Prop :=
  (key = "aps" ->
   exists err : GoError,
     Payload.SetCustomValue key value p = Returned (p, Some err))
  /\ (key <> "aps" ->
      exists (p' : Payload.t) (m' : gmap string GoValue),
        Payload.SetCustomValue key value p = Returned (p', None)
        /\ Payload.CustomValues p' = Some m'
        /\ m' !! key = Some value).

(** The zero value [Payload{}]: its map of custom values is [nil]. *)
Definition zero_payload : Payload.t := Payload.mk APS.zero "" None.

(** A payload in MDM mode, with an APS value that is not the default and
    one custom value. *)
Definition mdm_payload : Payload.t :=
  Payload.mk sound_only "X" (Some {["acme" := VInt 1]}).

(** ** More of the frame *)

(** The payload item follows the token item, whose value holds [size]
    bytes. *)
Definition payload_item (size : nat) (f : list Z) : list Z :=
  skipn (3 + size) (wire.frame_items f).
Definition payload_item_id (size : nat) (f : list Z) : Z :=
  nth 0 (payload_item size f) 0.
Definition payload_item_length (size : nat) (f : list Z) : Z :=
  wire.Uint16 (firstn 2 (skipn 1 (payload_item size f))).
Definition payload_item_value (size k : nat) (f : list Z) : list Z :=
  firstn k (skipn 3 (payload_item size f)).

(** The identifier item (7 bytes) comes before the expiration item and the
    priority item (11 bytes). *)
Definition identifier_item (f : list Z) : list Z := firstn 7 (wire.from_end 18 f).
Definition identifier_value (f : list Z) : list Z := skipn 3 (identifier_item f).

(** A notification with its payload pointer set to [nil]. *)
Definition without_payload (n : Notification.t) : Notification.t :=
  Notification.mk (Notification.ID n) (Notification.DeviceToken n)
    (Notification.Identifier n) (Notification.Expiration n)
    (Notification.Priority n) None.

(** [token32] with the case of its letters swapped. *)
Definition token32_swapped : string :=
  "000102030405060708090A0B0C0D0E0F101112131415161718191a1b1c1d1e1f".

(** [sample] under another name and token spelling, with an expiration
    [2^32] seconds later and the priority 266. *)
Definition sample_alias : Notification.t :=
  Notification.mk "n2" token32_swapped 7 (Some (time.mk (1700000000 + 2 ^ 32)))
    266 (Some NewPayload).

(** ** More of payloads *)

(** The key a payload serializes its mode under. *)
Definition mode_key (p : Payload.t) : string :=
  if negb (strlen (Payload.MDM p) =? 0) then "mdm" else "aps".

(** * Properties *)

(** ** Bytes and big-endian numbers *)

Lemma uint8_byte (x : Z) : wire.is_byte (binary.uint8 x).
Proof. unfold wire.is_byte, binary.uint8. apply Z.mod_pos_bound. lia. Qed.

Lemma byte_at_byte (v k : Z) : wire.is_byte (binary.byte_at v k).
Proof. apply uint8_byte. Qed.

Lemma byte_at_div (v k : Z) :
  0 <= k -> binary.byte_at v k = (v / 2 ^ k) mod 2 ^ 8.
Proof.
  intros Hk. unfold binary.byte_at, binary.uint8.
  now rewrite Z.shiftr_div_pow2.
Qed.

Lemma Uint16_PutUint16 (v : Z) :
  wire.Uint16 (binary.PutUint16 v) = v mod 2 ^ 16.
Proof.
  unfold binary.PutUint16, wire.Uint16.
  rewrite !byte_at_div by lia.
  change (2 ^ 0) with 1; change (2 ^ 8) with 256; change (2 ^ 16) with 65536.
  Z.div_mod_to_equations. lia.
Qed.

Lemma Uint32_PutUint32 (v : Z) :
  wire.Uint32 (binary.PutUint32 v) = v mod 2 ^ 32.
Proof.
  unfold binary.PutUint32, wire.Uint32.
  rewrite !byte_at_div by lia.
  change (2 ^ 0) with 1; change (2 ^ 8) with 256; change (2 ^ 16) with 65536;
    change (2 ^ 24) with 16777216; change (2 ^ 32) with 4294967296.
  Z.div_mod_to_equations. lia.
Qed.

Lemma uint16_small (v : Z) : 0 <= v < 2 ^ 16 -> binary.uint16 v = v.
Proof. intros H. unfold binary.uint16. now apply Z.mod_small. Qed.

Lemma uint32_small (v : Z) : 0 <= v < 2 ^ 32 -> binary.uint32 v = v.
Proof. intros H. unfold binary.uint32. now apply Z.mod_small. Qed.

Lemma PutUint32_length (v : Z) : List.length (binary.PutUint32 v) = 4%nat.
Proof. reflexivity. Qed.

(** ** Hexadecimal tokens *)

(** Induction on a string two characters at a time, the way
    [hex.DecodeString] consumes it. *)
Lemma string_pairs_ind (P : string -> Prop) :
  P EmptyString ->
  (forall p, P (String p EmptyString)) ->
  (forall p q rest, P rest -> P (String p (String q rest))) ->
  forall s, P s.
Proof.
  intros H0 H1 H2.
  fix IH 1. intros [|p [|q rest]].
  - exact H0.
  - apply H1.
  - apply H2, IH.
Qed.

(** The characters [fromHexChar] gives a value to are the 22 digits. *)
Lemma is_digit_fromHexChar (c : ascii) :
  hex.is_digit c = match hex.fromHexChar c with Some _ => true | None => false end.
Proof. destruct c as [[] [] [] [] [] [] [] []]; reflexivity. Qed.

(** [hex.DecodeString] reports no error exactly on the valid strings. *)
Lemma DecodeString_valid (s : string) :
  snd (hex.DecodeString s) = None <-> hex.valid s = true.
Proof.
  induction s as [|p|p q rest IH] using string_pairs_ind;
    cbn [hex.DecodeString hex.valid].
  - tauto.
  - destruct (hex.fromHexChar p); simpl; split; discriminate.
  - rewrite !is_digit_fromHexChar.
    destruct (hex.fromHexChar p); simpl; [|split; discriminate].
    destruct (hex.fromHexChar q); simpl; [|split; discriminate].
    destruct (hex.DecodeString rest) as [bs err]; simpl in *. exact IH.
Qed.

Lemma DecodeString_invalid (s : string) :
  hex.valid s = false -> exists cause, snd (hex.DecodeString s) = Some cause.
Proof.
  intros Hv. destruct (snd (hex.DecodeString s)) as [e|] eqn:E.
  - now exists e.
  - apply DecodeString_valid in E. congruence.
Qed.

(** [a << 4 | b] adds up when [b] fits in the four low bits. *)
Lemma lor_nibbles (a b : Z) :
  0 <= b < 16 -> Z.lor (Z.shiftl a 4) b = a * 16 + b.
Proof.
  intros Hb.
  assert (Hland : Z.land (Z.shiftl a 4) b = 0).
  { apply Z.bits_inj'. intros n Hn.
    rewrite Z.land_spec, Z.bits_0.
    destruct (Z.ltb_spec n 4) as [Hlt|Hge].
    - now rewrite Z.shiftl_spec_low.
    - destruct (Z.eq_dec b 0) as [->|Hb0].
      + now rewrite Z.bits_0, Bool.andb_false_r.
      + rewrite (Z.bits_above_log2 b n), Bool.andb_false_r; [reflexivity|lia|].
        apply Z.lt_le_trans with 4; [|exact Hge].
        apply Z.log2_lt_pow2; lia. }
  rewrite <- Z.lxor_lor, <- Z.add_nocarry_lxor by exact Hland.
  rewrite Z.shiftl_mul_pow2 by lia. reflexivity.
Qed.

(** A digit is worth less than 16, so two of them make a byte. *)
Lemma fromHexChar_range (c : ascii) (d : Z) :
  hex.fromHexChar c = Some d -> 0 <= d < 16.
Proof.
  unfold hex.fromHexChar.
  repeat match goal with
         | |- context [if ?b then _ else _] => destruct b eqn:?
         end; intros [= <-]; lia.
Qed.

Lemma DecodeString_bytes (s : string) :
  Forall wire.is_byte (fst (hex.DecodeString s)).
Proof.
  induction s as [|p|p q rest IH] using string_pairs_ind; simpl.
  - constructor.
  - destruct (hex.fromHexChar p); constructor.
  - destruct (hex.fromHexChar p) as [a|] eqn:Ea; [|constructor].
    destruct (hex.fromHexChar q) as [b|] eqn:Eb; [|constructor].
    destruct (hex.DecodeString rest) as [bs err]; simpl in *.
    constructor; [|exact IH].
    apply fromHexChar_range in Ea, Eb. unfold wire.is_byte.
    rewrite lor_nibbles by lia. lia.
Qed.

(** ** The layout of a frame *)

Section Layout.

Variable json_Marshal : marshaller.

(** A token that fails to decode ends the call before anything is
    written. *)
Lemma ToBinary_token_error (n : Notification.t) (bs : list Z) (cause : GoError) :
  hex.DecodeString (Notification.DeviceToken n) = (bs, Some cause) ->
  Notification.ToBinary json_Marshal n
  = ([], Some (fmt_Errorf_s "convert token to hex error: " cause)).
Proof. intros H. unfold Notification.ToBinary. now rewrite H. Qed.

(** With a token that decodes, the writes add up to the command byte, the
    length of the item buffer as a [uint32], and the five items. *)
Lemma ToBinary_layout (n : Notification.t) (tok : list Z) :
  hex.DecodeString (Notification.DeviceToken n) = (tok, None) ->
  let items := wire.render_all (items_of json_Marshal n tok) in
  Notification.ToBinary json_Marshal n
  = (2 :: binary.PutUint32 (binary.uint32 (Z.of_nat (List.length items))) ++ items,
     None).
Proof.
  intros H items. unfold Notification.ToBinary. rewrite H.
  f_equal.
  assert (Hexp :
    forall buf : list Z,
      match Notification.Expiration n with
      | None => binary.Write buf (binary.U32 (binary.uint32 0))
      | Some e => binary.Write buf (binary.U32 (binary.uint32 (time.Unix e)))
      end = buf ++ binary.PutUint32 (binary.uint32 (expiration_seconds n))).
  { intros buf. unfold expiration_seconds.
    now destruct (Notification.Expiration n). }
  rewrite Hexp. unfold binary.Write, binary.encode, Notification.buf_Len, len_bytes.
  fold (payload_json json_Marshal n).
  assert (Hitems :
    items = [1] ++ binary.PutUint16 32 ++ tok ++ [2]
            ++ binary.PutUint16
                 (binary.uint16 (Z.of_nat (List.length (payload_json json_Marshal n))))
            ++ payload_json json_Marshal n ++ [3] ++ binary.PutUint16 4
            ++ binary.PutUint32 (binary.uint32 (Notification.Identifier n))
            ++ [4] ++ binary.PutUint16 4
            ++ binary.PutUint32 (binary.uint32 (expiration_seconds n))
            ++ [5] ++ binary.PutUint16 1
            ++ [binary.uint8 (Notification.Priority n)]).
  { subst items. unfold wire.render_all, items_of, wire.render. simpl.
    rewrite <- ?app_assoc. reflexivity. }
  rewrite Hitems. simpl. rewrite <- ?app_assoc. reflexivity.
Qed.

End Layout.

(** ** Reading the fields of a frame *)

Lemma frame_items_layout (c L : Z) (items : list Z) :
  wire.frame_items (c :: binary.PutUint32 L ++ items) = items.
Proof. reflexivity. Qed.

Lemma frame_length_layout (c L : Z) (items : list Z) :
  wire.frame_length (c :: binary.PutUint32 L ++ items) = L mod 2 ^ 32.
Proof.
  unfold wire.frame_length.
  change (firstn 4 (skipn 1 (c :: binary.PutUint32 L ++ items)))
    with (binary.PutUint32 L).
  apply Uint32_PutUint32.
Qed.

Lemma from_end_app (k : nat) (pre suffix : list Z) :
  List.length suffix = k -> wire.from_end k (pre ++ suffix) = suffix.
Proof.
  intros <-. unfold wire.from_end.
  rewrite length_app, Nat.add_sub, skipn_app, Nat.sub_diag, skipn_all.
  reflexivity.
Qed.

Lemma PutUint16_small (v : Z) :
  0 <= v < 2 ^ 8 -> binary.PutUint16 v = [0; v].
Proof.
  intros Hv. unfold binary.PutUint16. rewrite !byte_at_div by lia.
  f_equal; [|f_equal].
  - rewrite (Z.div_small v) by lia. reflexivity.
  - change (2 ^ 0) with 1. rewrite Z.div_1_r. apply Z.mod_small. lia.
Qed.

Lemma render_all_app (its1 its2 : list wire.Item) :
  wire.render_all (its1 ++ its2) = wire.render_all its1 ++ wire.render_all its2.
Proof. unfold wire.render_all. now rewrite map_app, concat_app. Qed.

Lemma render_all_cons (it : wire.Item) (its : list wire.Item) :
  wire.render_all (it :: its) = wire.render it ++ wire.render_all its.
Proof. reflexivity. Qed.

(** The item buffer ends with the expiration item and the priority
    item. *)
Lemma render_all_tail (i1 i2 i3 i4 i5 : wire.Item) :
  wire.render_all [i1; i2; i3; i4; i5]
  = wire.render_all [i1; i2; i3] ++ wire.render i4 ++ wire.render i5.
Proof.
  change [i1; i2; i3; i4; i5] with ([i1; i2; i3] ++ [i4; i5]).
  rewrite render_all_app. f_equal.
  rewrite !render_all_cons. unfold wire.render_all. simpl concat.
  now rewrite app_nil_r.
Qed.

Lemma firstn_app_exact (l rest : list Z) : firstn (List.length l) (l ++ rest) = l.
Proof. now rewrite firstn_app, Nat.sub_diag, firstn_all, app_nil_r. Qed.

(** Every byte of the output is a byte, when the JSON bytes are. *)
Lemma ToBinary_bytes (json_Marshal : marshaller) (n : Notification.t) :
  Forall wire.is_byte (payload_json json_Marshal n) ->
  Forall wire.is_byte (fst (Notification.ToBinary json_Marshal n)).
Proof.
  intros Hjson.
  pose proof (DecodeString_bytes (Notification.DeviceToken n)) as Htok.
  destruct (hex.DecodeString (Notification.DeviceToken n)) as [tok [cause|]] eqn:Hdec.
  - rewrite (ToBinary_token_error json_Marshal n tok cause Hdec). constructor.
  - rewrite (ToBinary_layout json_Marshal n tok Hdec). cbn [fst snd] in *.
    unfold items_of, wire.render_all, wire.render, binary.PutUint16, binary.PutUint32.
    cbn [map concat wire.item_id wire.item_length wire.item_value app].
    repeat first
      [ apply List.Forall_nil
      | constructor;
        [lazymatch goal with
         | |- wire.is_byte (binary.byte_at _ _) => apply byte_at_byte
         | |- wire.is_byte (binary.uint8 _) => apply uint8_byte
         | |- wire.is_byte _ => unfold wire.is_byte; lia
         end|]
      | apply Forall_app; split; [assumption|] ].
Qed.

(** ** The device-token item *)

(** C1 (amended): in the frame [ToBinary] makes of a notification whose
    token string decodes, the device-token item has ID 1, the decoded
    bytes as its value, and a length field that is always 32: it is the
    byte count of the token exactly when the token decodes to 32 bytes. *)
Theorem token_item_fixed_length (json_Marshal : marshaller)
    (n : Notification.t) (tok : list Z) :
  hex.DecodeString (Notification.DeviceToken n) = (tok, None) ->
  let f := fst (Notification.ToBinary json_Marshal n) in
  wire.token_item_id f = 1
  /\ wire.token_item_length f = 32
  /\ wire.token_item_value (List.length tok) f = tok
  /\ (wire.token_item_length f = Z.of_nat (List.length tok)
      <-> List.length tok = 32%nat).
Proof.
  intros Hdec f. subst f. rewrite (ToBinary_layout json_Marshal n tok Hdec).
  cbn [fst].
  unfold wire.token_item_id, wire.token_item_length, wire.token_item_value.
  rewrite frame_items_layout. unfold items_of.
  rewrite render_all_cons. set (rest := wire.render_all _).
  unfold wire.render. cbn [wire.item_id wire.item_length wire.item_value].
  rewrite (PutUint16_small 32) by lia.
  assert (Hlen : wire.Uint16 (firstn 2 (skipn 1 ((1 :: [0; 32] ++ tok) ++ rest))) = 32)
    by reflexivity.
  split; [reflexivity|]. split; [exact Hlen|]. split.
  - change (skipn 3 ((1 :: [0; 32] ++ tok) ++ rest)) with (tok ++ rest).
    apply firstn_app_exact.
  - rewrite Hlen. lia.
Qed.

Lemma token_item_fixed_length_sample :
  let f := fst (Notification.ToBinary marshal_braces sample) in
  wire.token_item_id f = 1
  /\ wire.token_item_length f = 32
  /\ wire.token_item_value (List.length bytes32) f = bytes32
  /\ (wire.token_item_length f = Z.of_nat (List.length bytes32)
      <-> List.length bytes32 = 32%nat).
Proof. exact (token_item_fixed_length marshal_braces sample bytes32 eq_refl). Defined.

(** C1 as stated fails on a token of two digits: it decodes to one byte,
    and the length field still says 32. *)
Lemma token_item_length_not_byte_count :
  ~ token_item_sized_by_token marshal_braces short_token.
Proof.
  intros H. destruct (H [171] eq_refl) as (_ & Hlen & _).
  vm_compute in Hlen. discriminate Hlen.
Qed.

(** ** The outer frame *)

(** C2 (amended): for every notification whose token decodes, the output
    of [ToBinary] is one frame: the command byte 2, then a 4-byte
    big-endian length equal to the byte length of the item buffer reduced
    modulo [2^32] (the exact length whenever the item buffer is shorter
    than [2^32] bytes), then the item buffer and nothing else, made of the
    five items in the order device token, payload, identifier, expiration,
    priority. *)
Theorem frame_layout (json_Marshal : marshaller)
    (n : Notification.t) (tok : list Z) :
  hex.DecodeString (Notification.DeviceToken n) = (tok, None) ->
  exists f : list Z,
    Notification.ToBinary json_Marshal n = (f, None)
    /\ wire.frame_command f = 2
    /\ wire.frame_length f = Z.of_nat (List.length (wire.frame_items f)) mod 2 ^ 32
    /\ (Z.of_nat (List.length (wire.frame_items f)) < 2 ^ 32 ->
        wire.frame_length f = Z.of_nat (List.length (wire.frame_items f)))
    /\ List.length f = (5 + List.length (wire.frame_items f))%nat
    /\ wire.frame_items f = wire.render_all (items_of json_Marshal n tok)
    /\ map wire.item_id (items_of json_Marshal n tok) = [1; 2; 3; 4; 5].
Proof.
  intros Hdec. eexists. split; [apply (ToBinary_layout json_Marshal n tok Hdec)|].
  cbv zeta. set (items := wire.render_all _).
  rewrite frame_items_layout, frame_length_layout.
  unfold binary.uint32. rewrite Z.mod_mod by lia.
  split; [reflexivity|]. split; [reflexivity|]. split.
  - intros Hsmall. apply Z.mod_small. lia.
  - split; [|split; reflexivity].
    cbn [List.length]. rewrite length_app, PutUint32_length. reflexivity.
Qed.

Lemma frame_layout_sample :
  exists f : list Z,
    Notification.ToBinary marshal_braces sample = (f, None)
    /\ wire.frame_command f = 2
    /\ wire.frame_length f = Z.of_nat (List.length (wire.frame_items f)) mod 2 ^ 32
    /\ (Z.of_nat (List.length (wire.frame_items f)) < 2 ^ 32 ->
        wire.frame_length f = Z.of_nat (List.length (wire.frame_items f)))
    /\ List.length f = (5 + List.length (wire.frame_items f))%nat
    /\ wire.frame_items f = wire.render_all (items_of marshal_braces sample bytes32)
    /\ map wire.item_id (items_of marshal_braces sample bytes32) = [1; 2; 3; 4; 5].
Proof. exact (frame_layout marshal_braces sample bytes32 eq_refl). Defined.

(** The whole frame of [sample], byte by byte. *)
Example ToBinary_sample :
  Notification.ToBinary marshal_braces sample
  = ([2; 0; 0; 0; 58;
      1; 0; 32] ++ bytes32 ++
     [2; 0; 2; 123; 125;
      3; 0; 4; 0; 0; 0; 7;
      4; 0; 4; 0x65; 0x53; 0xF1; 0x00;
      5; 0; 1; 10], None).
Proof. vm_compute. reflexivity. Qed.

(** A marshaller's error is dropped: the payload item is written with
    whatever bytes came with it, here none. *)
Example ToBinary_marshal_error :
  Notification.ToBinary marshal_refuses sample
  = ([2; 0; 0; 0; 56;
      1; 0; 32] ++ bytes32 ++
     [2; 0; 0;
      3; 0; 4; 0; 0; 0; 7;
      4; 0; 4; 0x65; 0x53; 0xF1; 0x00;
      5; 0; 1; 10], None).
Proof. vm_compute. reflexivity. Qed.

(** The notification [NewNotification] makes has the empty token: its
    token item says 32 and holds no byte. *)
Example ToBinary_new :
  Notification.ToBinary marshal_braces NewNotification
  = ([2; 0; 0; 0; 26;
      1; 0; 32;
      2; 0; 2; 123; 125;
      3; 0; 4; 0; 0; 0; 0;
      4; 0; 4; 0; 0; 0; 0;
      5; 0; 1; 0], None).
Proof. vm_compute. reflexivity. Qed.

Lemma DecodeString_zeros (k : nat) :
  hex.DecodeString (zeros k) = (repeat 0 k, None).
Proof.
  induction k as [|k IH]; [reflexivity|].
  change (zeros (S k)) with (String "0" (String "0" (zeros k))).
  cbn [hex.DecodeString].
  change (hex.fromHexChar "0") with (Some 0).
  cbv iota. rewrite IH. reflexivity.
Qed.

(** The item buffer holds the token, so it is at least as long. *)
Lemma items_length_ge (json_Marshal : marshaller) (n : Notification.t)
    (tok : list Z) :
  (List.length tok <= List.length (wire.render_all (items_of json_Marshal n tok)))%nat.
Proof.
  unfold items_of. rewrite render_all_cons, length_app.
  unfold wire.render at 1. cbn [wire.item_value List.length].
  rewrite length_app. lia.
Qed.

(** A frame whose length field is exact has an item buffer, and so a
    token, shorter than [2^32] bytes. *)
Lemma exact_length_bounds_token (json_Marshal : marshaller)
    (n : Notification.t) (tok : list Z) :
  hex.DecodeString (Notification.DeviceToken n) = (tok, None) ->
  frame_with_exact_length json_Marshal n ->
  Z.of_nat (List.length tok) < 2 ^ 32.
Proof.
  intros Hdec H.
  destruct (H tok Hdec) as (f & Hf & _ & Hlen & _).
  rewrite (ToBinary_layout json_Marshal n tok Hdec) in Hf.
  apply (f_equal fst) in Hf. cbn [fst] in Hf. subst f.
  rewrite frame_items_layout, frame_length_layout in Hlen.
  pose proof (items_length_ge json_Marshal n tok) as Hge.
  set (items := wire.render_all _) in *.
  unfold binary.uint32 in Hlen. rewrite Z.mod_mod in Hlen by lia.
  pose proof (Z.mod_pos_bound (Z.of_nat (List.length items)) (2 ^ 32)
                ltac:(lia)) as Hbound.
  lia.
Qed.

(** C2 as stated fails on a token of [2^33] digits: the item buffer is
    longer than [2^32] bytes, more than a 4-byte length field can say. *)
Lemma frame_length_wraps :
  ~ frame_with_exact_length marshal_braces huge_token.
Proof.
  intros H.
  apply (exact_length_bounds_token marshal_braces huge_token
           (repeat 0 (Z.to_nat (2 ^ 32)))
           (DecodeString_zeros (Z.to_nat (2 ^ 32)))) in H.
  rewrite repeat_length, Z2Nat.id in H.
  - exact (Z.lt_irrefl _ H).
  - apply Z.pow_nonneg. discriminate.
Qed.

(** ** A token that does not decode *)

(** C5: for every notification whose token string is not valid
    hexadecimal, [ToBinary] answers an error that carries the failure of
    [hex.DecodeString], and no bytes. *)
Theorem invalid_token_fails (json_Marshal : marshaller) (n : Notification.t) :
  hex.valid (Notification.DeviceToken n) = false ->
  exists cause : GoError,
    snd (hex.DecodeString (Notification.DeviceToken n)) = Some cause
    /\ Notification.ToBinary json_Marshal n
       = ([], Some (fmt_Errorf_s "convert token to hex error: " cause)).
Proof.
  intros Hbad. destruct (DecodeString_invalid _ Hbad) as [cause Hcause].
  exists cause. split; [exact Hcause|].
  destruct (hex.DecodeString (Notification.DeviceToken n)) as [bs err] eqn:Hdec.
  simpl in Hcause. subst err.
  exact (ToBinary_token_error json_Marshal n bs cause Hdec).
Qed.

Lemma invalid_token_fails_zz :
  exists cause : GoError,
    snd (hex.DecodeString (Notification.DeviceToken bad_token)) = Some cause
    /\ Notification.ToBinary marshal_braces bad_token
       = ([], Some (fmt_Errorf_s "convert token to hex error: " cause)).
Proof. exact (invalid_token_fails marshal_braces bad_token eq_refl). Defined.

(** The token ["zz"] fails on its first byte. *)
Example ToBinary_zz :
  Notification.ToBinary marshal_braces bad_token
  = ([], Some (fmt_Errorf_s "convert token to hex error: " (hex_InvalidByteError "z"))).
Proof. reflexivity. Qed.

(** A token with a lone last digit fails on its length. *)
Example DecodeString_odd : hex.DecodeString "abc" = ([171], Some hex_ErrLength).
Proof. reflexivity. Qed.

(** ** The expiration and priority items *)

(** The frame ends with the expiration item and the priority item. *)
Lemma ToBinary_tail (json_Marshal : marshaller) (n : Notification.t)
    (tok : list Z) :
  hex.DecodeString (Notification.DeviceToken n) = (tok, None) ->
  exists pre : list Z,
    fst (Notification.ToBinary json_Marshal n)
    = pre ++ ([4; 0; 4] ++ binary.PutUint32 (binary.uint32 (expiration_seconds n)))
          ++ [5; 0; 1; binary.uint8 (Notification.Priority n)].
Proof.
  intros Hdec. rewrite (ToBinary_layout json_Marshal n tok Hdec). cbn [fst].
  unfold items_of. rewrite render_all_tail.
  set (head := wire.render_all _). set (L := binary.uint32 _).
  exists (2 :: binary.PutUint32 L ++ head).
  unfold wire.render. cbn [wire.item_id wire.item_length wire.item_value].
  rewrite (PutUint16_small 4), (PutUint16_small 1) by lia.
  rewrite <- !app_assoc. reflexivity.
Qed.

Lemma PutUint32_bytes (v : Z) : Forall wire.is_byte (binary.PutUint32 v).
Proof. unfold binary.PutUint32. repeat constructor; apply byte_at_byte. Qed.

(** C8: the value of the expiration item is four bytes, the big-endian
    unsigned number of the expiration's Unix seconds as a [uint32] (the
    seconds themselves when they fit 32 bits) when an expiration is set, and
    [00 00 00 00] when none is; the seconds 1700000000 give
    [65 53 F1 00]. *)
Theorem expiration_item_value (json_Marshal : marshaller)
    (n : Notification.t) (tok : list Z) :
  hex.DecodeString (Notification.DeviceToken n) = (tok, None) ->
  let f := fst (Notification.ToBinary json_Marshal n) in
  firstn 3 (wire.expiration_item f) = [4; 0; 4]
  /\ List.length (wire.expiration_value f) = 4%nat
  /\ Forall wire.is_byte (wire.expiration_value f)
  /\ match Notification.Expiration n with
     | None => wire.expiration_value f = [0; 0; 0; 0]
     | Some t =>
         wire.expiration_value f = binary.PutUint32 (binary.uint32 (time.Unix t))
         /\ wire.Uint32 (wire.expiration_value f) = time.Unix t mod 2 ^ 32
         /\ (0 <= time.Unix t < 2 ^ 32 ->
             wire.Uint32 (wire.expiration_value f) = time.Unix t)
         /\ (time.Unix t = 1700000000 ->
             wire.expiration_value f = [0x65; 0x53; 0xF1; 0x00])
     end.
Proof.
  intros Hdec f. subst f.
  destruct (ToBinary_tail json_Marshal n tok Hdec) as [pre ->].
  assert (Hval :
    wire.expiration_value
      (pre ++ ([4; 0; 4] ++ binary.PutUint32 (binary.uint32 (expiration_seconds n)))
           ++ [5; 0; 1; binary.uint8 (Notification.Priority n)])
    = binary.PutUint32 (binary.uint32 (expiration_seconds n))).
  { unfold wire.expiration_value, wire.expiration_item.
    rewrite from_end_app by reflexivity. reflexivity. }
  rewrite Hval. split.
  - unfold wire.expiration_item. rewrite from_end_app by reflexivity. reflexivity.
  - split; [apply PutUint32_length|]. split; [apply PutUint32_bytes|].
    unfold expiration_seconds. destruct (Notification.Expiration n) as [t|].
    + split; [reflexivity|].
      rewrite Uint32_PutUint32. unfold binary.uint32. rewrite Z.mod_mod by lia.
      split; [reflexivity|]. split.
      * intros Hfit. now apply Z.mod_small.
      * intros ->. reflexivity.
    + reflexivity.
Qed.

Lemma expiration_item_value_sample :
  let f := fst (Notification.ToBinary marshal_braces sample) in
  firstn 3 (wire.expiration_item f) = [4; 0; 4]
  /\ List.length (wire.expiration_value f) = 4%nat
  /\ Forall wire.is_byte (wire.expiration_value f)
  /\ (wire.expiration_value f = binary.PutUint32 (binary.uint32 1700000000)
      /\ wire.Uint32 (wire.expiration_value f) = 1700000000 mod 2 ^ 32
      /\ (0 <= 1700000000 < 2 ^ 32 -> wire.Uint32 (wire.expiration_value f) = 1700000000)
      /\ (1700000000 = 1700000000 -> wire.expiration_value f = [0x65; 0x53; 0xF1; 0x00])).
Proof. exact (expiration_item_value marshal_braces sample bytes32 eq_refl). Defined.

(** An expiration one second before the epoch is written as
    [FF FF FF FF]. *)
Example expiration_before_epoch :
  wire.expiration_value (fst (Notification.ToBinary marshal_braces odd_fields))
  = [255; 255; 255; 255].
Proof. vm_compute. reflexivity. Qed.

(** C10: the value of the priority item is one byte, the priority reduced
    modulo [2^8], whatever integer the priority is. *)
Theorem priority_item_value (json_Marshal : marshaller)
    (n : Notification.t) (tok : list Z) :
  hex.DecodeString (Notification.DeviceToken n) = (tok, None) ->
  let f := fst (Notification.ToBinary json_Marshal n) in
  wire.priority_item f = [5; 0; 1; Notification.Priority n mod 2 ^ 8]
  /\ wire.priority_value f = [Notification.Priority n mod 2 ^ 8]
  /\ wire.is_byte (Notification.Priority n mod 2 ^ 8).
Proof.
  intros Hdec f. subst f.
  destruct (ToBinary_tail json_Marshal n tok Hdec) as [pre ->].
  unfold wire.priority_value, wire.priority_item.
  rewrite app_assoc, from_end_app by reflexivity.
  repeat split; apply (uint8_byte (Notification.Priority n)).
Qed.

Lemma priority_item_value_300 :
  let f := fst (Notification.ToBinary marshal_braces odd_fields) in
  wire.priority_item f = [5; 0; 1; 300 mod 2 ^ 8]
  /\ wire.priority_value f = [300 mod 2 ^ 8]
  /\ wire.is_byte (300 mod 2 ^ 8).
Proof. exact (priority_item_value marshal_braces odd_fields bytes32 eq_refl). Defined.

(** The priority 300 is written as the byte 44. *)
Example priority_300 :
  wire.priority_value (fst (Notification.ToBinary marshal_braces odd_fields)) = [44].
Proof. vm_compute. reflexivity. Qed.

(** ** Reading a frame back *)

Lemma render_length (it : wire.Item) :
  List.length (wire.render it) = (3 + List.length (wire.item_value it))%nat.
Proof. unfold wire.render. cbn [List.length]. now rewrite length_app. Qed.

Lemma render_all_length_ge (its : list wire.Item) :
  (List.length its <= List.length (wire.render_all its))%nat.
Proof.
  induction its as [|it its IH]; [reflexivity|].
  rewrite render_all_cons, length_app, render_length. cbn [List.length]. lia.
Qed.

(** Items whose length fields are right are read back as they were
    written, given one unit of fuel an item. *)
Lemma read_items_render_all (its : list wire.Item) :
  Forall well_sized its ->
  forall fuel : nat,
    (List.length its <= fuel)%nat ->
    wire.read_items fuel (wire.render_all its) = Some its.
Proof.
  induction 1 as [|it its [Hrange Hsize] _ IH]; intros fuel Hfuel.
  - now destruct fuel.
  - destruct fuel as [|fuel]; [cbn [List.length] in Hfuel; lia|].
    rewrite render_all_cons. destruct it as [id n value].
    cbn [wire.item_length wire.item_value] in Hrange, Hsize.
    unfold wire.render, binary.PutUint16.
    cbn [wire.item_id wire.item_length wire.item_value app wire.read_items].
    fold (binary.PutUint16 n). rewrite Uint16_PutUint16, Z.mod_small by exact Hrange.
    assert (Hn : Z.to_nat n = List.length value) by lia.
    destruct (Z.ltb_spec (Z.of_nat (List.length (value ++ wire.render_all its))) n)
      as [Hshort|_].
    { rewrite length_app in Hshort. lia. }
    rewrite Hn, skipn_app, Nat.sub_diag, skipn_all, firstn_app_exact.
    cbn [app skipn].
    rewrite IH by (cbn [List.length] in Hfuel; lia).
    reflexivity.
Qed.

Lemma parse_items_render_all (its : list wire.Item) :
  Forall well_sized its -> wire.parse_items (wire.render_all its) = Some its.
Proof.
  intros Hits. apply read_items_render_all; [exact Hits|].
  apply render_all_length_ge.
Qed.

Lemma Uint32_PutUint32_small (v : Z) :
  0 <= v < 2 ^ 32 -> wire.Uint32 (binary.PutUint32 v) = v.
Proof. intros Hv. rewrite Uint32_PutUint32. now apply Z.mod_small. Qed.

(** C9 (amended): for every notification that [ToBinary] encodes, whose
    token decodes to exactly 32 bytes and whose payload JSON is shorter
    than [2^16] bytes, reading the frame item by item (the 1-byte ID, the
    2-byte big-endian length, then that many bytes) gives back the five
    items with the decoded token, the JSON bytes, and the identifier,
    expiration and priority as they were written; the identifier is read
    back whole when it is a [uint32]. *)
Theorem reparse_roundtrip (json_Marshal : marshaller)
    (n : Notification.t) (tok : list Z) :
  hex.DecodeString (Notification.DeviceToken n) = (tok, None) ->
  List.length tok = 32%nat ->
  Z.of_nat (List.length (payload_json json_Marshal n)) < 2 ^ 16 ->
  exists (f : list Z) (its : list wire.Item),
    Notification.ToBinary json_Marshal n = (f, None)
    /\ wire.parse_frame f = Some (2, its)
    /\ fields its = inputs_of json_Marshal n
    /\ map wire.item_length its
       = [32; Z.of_nat (List.length (payload_json json_Marshal n)); 4; 4; 1]
    /\ (0 <= Notification.Identifier n < 2 ^ 32 ->
        forall v, nth_error (fields its) 2 = Some (3, v) ->
                  wire.Uint32 v = Notification.Identifier n).
Proof.
  intros Hdec Htok Hjson.
  exists (fst (Notification.ToBinary json_Marshal n)), (items_of json_Marshal n tok).
  rewrite (ToBinary_layout json_Marshal n tok Hdec). cbn [fst].
  set (items := wire.render_all (items_of json_Marshal n tok)).
  split; [reflexivity|].
  assert (Hsized : Forall well_sized (items_of json_Marshal n tok)).
  { unfold items_of, well_sized.
    repeat constructor; cbn [wire.item_length wire.item_value]; try lia.
    - apply Z.mod_pos_bound. lia.
    - apply Z.mod_pos_bound. lia.
    - symmetry. apply uint16_small. lia. }
  assert (Hlen : Z.of_nat (List.length items)
                 = 56 + Z.of_nat (List.length (payload_json json_Marshal n))).
  { subst items. unfold items_of.
    rewrite !render_all_cons, !length_app, !render_length.
    cbn [wire.item_value]. rewrite !PutUint32_length, Htok.
    cbn [wire.render_all map concat List.length]. lia. }
  split; [|split; [|split]].
  - unfold wire.parse_frame, binary.PutUint32. cbn [app].
    fold (binary.PutUint32 (binary.uint32 (Z.of_nat (List.length items)))).
    rewrite Uint32_PutUint32_small by (apply Z.mod_pos_bound; lia).
    rewrite uint32_small by lia. rewrite Z.eqb_refl.
    subst items. now rewrite parse_items_render_all.
  - unfold fields, inputs_of, items_of. cbn [map wire.item_id wire.item_value].
    now rewrite Hdec.
  - unfold items_of. cbn [map wire.item_length].
    now rewrite uint16_small by lia.
  - intros Hid v Hv. unfold fields, items_of in Hv.
    cbn [map nth_error wire.item_id wire.item_value] in Hv.
    injection Hv as <-.
    rewrite uint32_small by exact Hid. now apply Uint32_PutUint32_small.
Qed.

Lemma reparse_roundtrip_sample :
  exists (f : list Z) (its : list wire.Item),
    Notification.ToBinary marshal_braces sample = (f, None)
    /\ wire.parse_frame f = Some (2, its)
    /\ fields its = inputs_of marshal_braces sample
    /\ map wire.item_length its
       = [32; Z.of_nat (List.length (payload_json marshal_braces sample)); 4; 4; 1]
    /\ (0 <= Notification.Identifier sample < 2 ^ 32 ->
        forall v, nth_error (fields its) 2 = Some (3, v) ->
                  wire.Uint32 v = Notification.Identifier sample).
Proof.
  exact (reparse_roundtrip marshal_braces sample bytes32 eq_refl eq_refl eq_refl).
Defined.

(** C9 as stated fails on a token of two digits: the frame says the
    token item holds 32 bytes, and the items that follow it are 22 bytes in
    all. *)
Lemma reparse_fails_short_token :
  ~ reparse_recovers marshal_braces short_token.
Proof.
  intros H. destruct (H _ eq_refl) as (its & Hparse & _).
  vm_compute in Hparse. discriminate Hparse.
Qed.

(** A payload of [2^16] bytes is written with the length field 0, and
    the frame cannot be read back either. *)
Example reparse_fails_long_payload :
  snd (Notification.ToBinary marshal_64k sample) = None
  /\ firstn 3 (skipn 35 (wire.frame_items (fst (Notification.ToBinary marshal_64k sample))))
     = [2; 0; 0]
  /\ wire.parse_frame (fst (Notification.ToBinary marshal_64k sample)) = None.
Proof. repeat split; vm_compute; reflexivity. Qed.

(** ** Alerts *)

Lemma strlen_zero (s : string) : (strlen s =? 0) = true <-> s = "".
Proof.
  rewrite Z.eqb_eq. unfold strlen.
  destruct s; cbn [String.length]; split; intros H; try reflexivity; try discriminate; lia.
Qed.

Lemma isZero_fields (a : Alert.t) :
  Alert.isZero a = true
  <-> Alert.Body a = "" /\ Alert.LocKey a = "" /\ len (Alert.LocArgs a) = 0
      /\ Alert.ActionLocKey a = "" /\ Alert.LaunchImage a = "".
Proof.
  unfold Alert.isZero.
  rewrite !Bool.andb_true_iff, !strlen_zero, Z.eqb_eq. tauto.
Qed.

(** Looking a key up in a mapping built by conditional assignments. *)
Lemma lookup_if_insert_ne (b : bool) (k k' : string) (v : GoValue)
    (d : gmap string GoValue) :
  k <> k' -> (if b then <[k := v]> d else d) !! k' = d !! k'.
Proof. intros Hne. destruct b; [now apply lookup_insert_ne|reflexivity]. Qed.

Lemma lookup_if_insert_eq (b : bool) (k : string) (v : GoValue)
    (d : gmap string GoValue) :
  (if b then <[k := v]> d else d) !! k = if b then Some v else d !! k.
Proof. destruct b; [apply lookup_insert_eq|reflexivity]. Qed.

Ltac aps_lookup :=
  unfold APS.serializeForAPNS; cbv zeta;
  cbn [APS.Alert APS.Badge APS.Sound APS.ContentAvailable APS.URLArgs APS.Category];
  repeat first
    [ rewrite lookup_if_insert_ne by discriminate
    | rewrite lookup_if_insert_eq
    | rewrite lookup_insert_ne by discriminate
    | rewrite lookup_insert_eq
    | rewrite lookup_empty ].

Lemma lookup_alert (aps : APS.t) :
  APS.serializeForAPNS aps !! "alert"
  = if Alert.isZero (APS.Alert aps) then None else Some (VAlert (APS.Alert aps)).
Proof.
  destruct aps as [a [b|] sound ca args cat]; aps_lookup;
    cbn [APS.Alert]; now destruct (Alert.isZero a).
Qed.

(** C6 (amended): an alert is empty exactly when its body, localization
    key, localization arguments, action-localization key and launch image
    are all unset; the title and the action play no part, so an alert
    whose only set fields are the title and the action is empty; and an
    alert is left out of the ["aps"] mapping exactly when it is empty. *)
Theorem alert_empty_rule (aps : APS.t) (title action : string) :
  let a := APS.Alert aps in
  (Alert.isZero a = true
   <-> Alert.Body a = "" /\ Alert.LocKey a = "" /\ len (Alert.LocArgs a) = 0
       /\ Alert.ActionLocKey a = "" /\ Alert.LaunchImage a = "")
  /\ Alert.isZero
       (Alert.mk (Alert.Body a) title action (Alert.LocKey a) (Alert.LocArgs a)
          (Alert.ActionLocKey a) (Alert.LaunchImage a))
     = Alert.isZero a
  /\ Alert.isZero (Alert.mk "" title action "" None "" "") = true
  /\ (APS.serializeForAPNS aps !! "alert" = None <-> Alert.isZero a = true).
Proof.
  intros a. split; [apply isZero_fields|]. split; [reflexivity|].
  split; [reflexivity|].
  rewrite lookup_alert. fold a. destruct (Alert.isZero a); split; congruence.
Qed.

(** C6 as stated fails on an alert with a launch image only: the four
    fields of the claim are unset, and the alert is not empty. *)
Lemma launch_image_not_empty : ~ empty_by_four_fields launch_image_only.
Proof.
  intros [_ H].
  assert (Hzero : Alert.isZero launch_image_only = true) by (apply H; repeat split).
  discriminate Hzero.
Qed.

(** Such an alert is written to the ["aps"] mapping. *)
Example launch_image_serialized :
  APS.serializeForAPNS (APS.mk launch_image_only None "" 0 None "") !! "alert"
  = Some (VAlert launch_image_only).
Proof. now rewrite lookup_alert. Qed.

(** ** The ["aps"] mapping *)

Lemma eqb_empty (s : string) : negb (String.eqb s "") = true <-> s <> "".
Proof.
  rewrite Bool.negb_true_iff. apply String.eqb_neq.
Qed.

Lemma lookup_badge (aps : APS.t) :
  APS.serializeForAPNS aps !! "badge"
  = match APS.Badge aps with Some b => Some (VIntPtr b) | None => None end.
Proof. destruct aps as [a [b|] sound ca args cat]; aps_lookup; reflexivity. Qed.

Lemma lookup_sound (aps : APS.t) :
  APS.serializeForAPNS aps !! "sound"
  = if negb (String.eqb (APS.Sound aps) "") then Some (VString (APS.Sound aps))
    else None.
Proof. destruct aps as [a [b|] sound ca args cat]; aps_lookup; reflexivity. Qed.

Lemma lookup_content_available (aps : APS.t) :
  APS.serializeForAPNS aps !! "content-available"
  = if negb (APS.ContentAvailable aps =? 0)
    then Some (VInt (APS.ContentAvailable aps)) else None.
Proof. destruct aps as [a [b|] sound ca args cat]; aps_lookup; reflexivity. Qed.

Lemma lookup_category (aps : APS.t) :
  APS.serializeForAPNS aps !! "category"
  = if negb (String.eqb (APS.Category aps) "")
    then Some (VString (APS.Category aps)) else None.
Proof. destruct aps as [a [b|] sound ca args cat]; aps_lookup; reflexivity. Qed.

Lemma lookup_url_args (aps : APS.t) :
  APS.serializeForAPNS aps !! "url-args"
  = if negb (len (APS.URLArgs aps) =? 0) then Some (VStrings (APS.URLArgs aps))
    else None.
Proof.
  destruct aps as [a [b|] sound ca [args|] cat]; aps_lookup; reflexivity.
Qed.

(** No other key is written. *)
Lemma lookup_other (aps : APS.t) (k : string) :
  ~ In k aps_keys -> APS.serializeForAPNS aps !! k = None.
Proof.
  intros Hk. unfold aps_keys in Hk. cbn [In] in Hk.
  destruct aps as [a [b|] sound ca args cat]; unfold APS.serializeForAPNS; cbv zeta;
    cbn [APS.Alert APS.Badge APS.Sound APS.ContentAvailable APS.URLArgs APS.Category];
    repeat first
      [ rewrite lookup_if_insert_ne by (intros <-; tauto)
      | rewrite lookup_insert_ne by (intros <-; tauto) ];
    apply lookup_empty.
Qed.

(** C4: a field is in the ["aps"] mapping if and only if it is not at its
    default: the alert unless it is empty, the badge when the pointer is
    set (the badge 0 is written, no badge is not), the sound and the
    category unless empty, content-available unless 0, url-args unless it
    has no element; each with the value of its field, and no other key.
    With the sound ["default"] and nothing else the mapping is
    [{"sound": "default"}]. *)
Theorem aps_field_iff_not_default (aps : APS.t) :
  let data := APS.serializeForAPNS aps in
  (data !! "alert" = Some (VAlert (APS.Alert aps))
   <-> Alert.isZero (APS.Alert aps) = false)
  /\ (data !! "alert" = None <-> Alert.isZero (APS.Alert aps) = true)
  /\ (forall b : Z, data !! "badge" = Some (VIntPtr b) <-> APS.Badge aps = Some b)
  /\ (data !! "badge" = None <-> APS.Badge aps = None)
  /\ (data !! "sound" = Some (VString (APS.Sound aps)) <-> APS.Sound aps <> "")
  /\ (data !! "sound" = None <-> APS.Sound aps = "")
  /\ (data !! "content-available" = Some (VInt (APS.ContentAvailable aps))
      <-> APS.ContentAvailable aps <> 0)
  /\ (data !! "content-available" = None <-> APS.ContentAvailable aps = 0)
  /\ (data !! "category" = Some (VString (APS.Category aps))
      <-> APS.Category aps <> "")
  /\ (data !! "category" = None <-> APS.Category aps = "")
  /\ (data !! "url-args" = Some (VStrings (APS.URLArgs aps))
      <-> len (APS.URLArgs aps) <> 0)
  /\ (data !! "url-args" = None <-> len (APS.URLArgs aps) = 0)
  /\ (forall k : string, is_Some (data !! k) -> In k aps_keys)
  /\ APS.serializeForAPNS sound_only = {["sound" := VString "default"]}
  /\ APS.serializeForAPNS badge_zero = {["badge" := VIntPtr 0]}
  /\ APS.serializeForAPNS APS.zero = ∅.
Proof.
  intros data. subst data.
  rewrite lookup_alert, lookup_badge, lookup_sound, lookup_content_available,
    lookup_category, lookup_url_args.
  repeat match goal with |- _ /\ _ => split end.
  - destruct (Alert.isZero (APS.Alert aps)); split; congruence.
  - destruct (Alert.isZero (APS.Alert aps)); split; congruence.
  - intros b. destruct (APS.Badge aps); split; congruence.
  - destruct (APS.Badge aps); split; congruence.
  - rewrite <- eqb_empty.
    destruct (negb (String.eqb (APS.Sound aps) "")); split; congruence.
  - rewrite <- String.eqb_eq.
    destruct (String.eqb (APS.Sound aps) ""); cbn [negb]; split; congruence.
  - rewrite <- Z.eqb_neq.
    destruct (APS.ContentAvailable aps =? 0); cbn [negb]; split; congruence.
  - rewrite <- Z.eqb_eq.
    destruct (APS.ContentAvailable aps =? 0); cbn [negb]; split; congruence.
  - rewrite <- eqb_empty.
    destruct (negb (String.eqb (APS.Category aps) "")); split; congruence.
  - rewrite <- String.eqb_eq.
    destruct (String.eqb (APS.Category aps) ""); cbn [negb]; split; congruence.
  - rewrite <- Z.eqb_neq.
    destruct (len (APS.URLArgs aps) =? 0); cbn [negb]; split; congruence.
  - rewrite <- Z.eqb_eq.
    destruct (len (APS.URLArgs aps) =? 0); cbn [negb]; split; congruence.
  - intros k [v Hv]. destruct (in_dec string_dec k aps_keys) as [Hin|Hout];
      [exact Hin|].
    rewrite (lookup_other aps k Hout) in Hv. discriminate Hv.
  - unfold APS.serializeForAPNS, sound_only. cbn. apply insert_empty.
  - unfold APS.serializeForAPNS, badge_zero. cbn. apply insert_empty.
  - reflexivity.
Qed.

(** ** The payload mapping *)

(** Assigning every entry of [m] into [data] gives [m], and what [data]
    had under other keys. *)
Lemma range_assign_union (m data : gmap string GoValue) :
  Payload.range_assign (Some m) data = m ∪ data.
Proof.
  unfold Payload.range_assign.
  apply (map_fold_weak_ind (fun r m' => r = m' ∪ data)).
  - now rewrite (left_id_L ∅ (∪)).
  - intros k v m' r _ ->. apply insert_union_l.
Qed.

(** The loop copies the custom values into the fresh mapping. *)
Lemma range_assign_custom (p : Payload.t) :
  Payload.range_assign (Payload.CustomValues p) ∅ = custom_values p.
Proof.
  unfold custom_values. destruct (Payload.CustomValues p) as [m|]; [|reflexivity].
  rewrite range_assign_union. apply (right_id_L ∅ (∪)).
Qed.

Lemma serializeForAPNS_mdm (p : Payload.t) :
  Payload.MDM p <> "" ->
  Payload.serializeForAPNS p
  = <["mdm" := VString (Payload.MDM p)]> (custom_values p).
Proof.
  intros Hmdm. unfold Payload.serializeForAPNS. cbv zeta.
  rewrite range_assign_custom.
  destruct (strlen (Payload.MDM p) =? 0) eqn:E; [|reflexivity].
  apply strlen_zero in E. contradiction.
Qed.

Lemma serializeForAPNS_aps (p : Payload.t) :
  Payload.MDM p = "" ->
  Payload.serializeForAPNS p
  = <["aps" := VMap (APS.serializeForAPNS (Payload.APS p))]> (custom_values p).
Proof.
  intros Hmdm. unfold Payload.serializeForAPNS. cbv zeta.
  rewrite range_assign_custom, Hmdm. reflexivity.
Qed.

(** C3 (amended): with a non-empty MDM string the mapping binds ["mdm"] to
    that string and nothing comes from the APS value: under ["aps"] it has
    what the custom values have there, which is nothing unless they hold
    an ["aps"] key of their own.  With an empty MDM string it binds
    ["aps"] to the output of the APS aggregator, the empty mapping
    included.  Every other key is as in the custom values. *)
Theorem payload_mdm_or_aps (p : Payload.t) :
  let data := Payload.serializeForAPNS p in
  (Payload.MDM p <> "" ->
   data !! "mdm" = Some (VString (Payload.MDM p))
   /\ data !! "aps" = custom_values p !! "aps"
   /\ (custom_values p !! "aps" = None -> data !! "aps" = None))
  /\ (Payload.MDM p = "" ->
      data !! "aps" = Some (VMap (APS.serializeForAPNS (Payload.APS p)))
      /\ data !! "mdm" = custom_values p !! "mdm"
      /\ (APS.serializeForAPNS (Payload.APS p) = ∅ ->
          data !! "aps" = Some (VMap ∅)))
  /\ (forall k : string,
        k <> "mdm" -> k <> "aps" -> data !! k = custom_values p !! k).
Proof.
  intros data. subst data. split; [|split].
  - intros Hmdm. rewrite (serializeForAPNS_mdm p Hmdm).
    rewrite lookup_insert_eq, lookup_insert_ne by discriminate.
    split; [reflexivity|]. split; [reflexivity|]. tauto.
  - intros Hmdm. rewrite (serializeForAPNS_aps p Hmdm).
    rewrite lookup_insert_eq, lookup_insert_ne by discriminate.
    split; [reflexivity|]. split; [reflexivity|]. now intros ->.
  - intros k Hk1 Hk2. destruct (string_dec (Payload.MDM p) "") as [Hmdm|Hmdm].
    + rewrite (serializeForAPNS_aps p Hmdm). now apply lookup_insert_ne.
    + rewrite (serializeForAPNS_mdm p Hmdm). now apply lookup_insert_ne.
Qed.

Lemma payload_mdm_or_aps_sample :
  (Payload.serializeForAPNS mdm_payload !! "mdm" = Some (VString "X")
   /\ Payload.serializeForAPNS mdm_payload !! "aps" = None)
  /\ Payload.serializeForAPNS NewPayload !! "aps" = Some (VMap ∅).
Proof.
  split.
  - destruct (payload_mdm_or_aps mdm_payload) as (Hmdm & _ & _).
    destruct Hmdm as (H1 & _ & H3); [discriminate|].
    split; [exact H1|]. apply H3. apply lookup_singleton_ne. discriminate.
  - destruct (payload_mdm_or_aps NewPayload) as (_ & Haps & _).
    destruct Haps as (_ & _ & H3); [reflexivity|]. apply H3. reflexivity.
Defined.

(** C3 as stated fails on a payload whose custom values hold an ["aps"]
    key: with the MDM string ["X"] the mapping still has ["aps"]. *)
Lemma mdm_with_custom_aps : ~ mdm_excludes_aps custom_aps.
Proof.
  intros [H _]. destruct H as [_ Haps]; [discriminate|].
  rewrite (serializeForAPNS_mdm custom_aps) in Haps by discriminate.
  rewrite lookup_insert_ne in Haps by discriminate.
  unfold custom_values, custom_aps in Haps. cbn [Payload.CustomValues] in Haps.
  rewrite lookup_singleton_eq in Haps. discriminate Haps.
Qed.

(** A payload built from [NewPayload] has a map of custom values, without
    an ["aps"] key. *)
Lemma built_no_custom_aps (p : Payload.t) :
  built p ->
  exists m : gmap string GoValue,
    Payload.CustomValues p = Some m /\ m !! "aps" = None.
Proof.
  induction 1 as [|p aps mdm _ IH|p p' key value err _ IH Hset].
  - exists ∅. split; [reflexivity|apply lookup_empty].
  - exact IH.
  - destruct IH as (m & Hm & Haps). unfold Payload.SetCustomValue in Hset.
    destruct (String.eqb key "aps") eqn:Hkey.
    + injection Hset as <- _. now exists m.
    + rewrite Hm in Hset. injection Hset as <- _.
      exists (<[key := value]> m). split; [reflexivity|].
      apply String.eqb_neq in Hkey. now rewrite lookup_insert_ne.
Qed.

(** For such a payload the two modes exclude each other. *)
Lemma built_mdm_excludes_aps (p : Payload.t) : built p -> mdm_excludes_aps p.
Proof.
  intros Hp. destruct (built_no_custom_aps p Hp) as (m & Hm & Haps).
  split.
  - intros Hne. rewrite (serializeForAPNS_mdm p Hne).
    rewrite lookup_insert_eq, lookup_insert_ne by discriminate.
    split; [reflexivity|]. unfold custom_values. now rewrite Hm.
  - intros He. rewrite (serializeForAPNS_aps p He). apply lookup_insert_eq.
Qed.

(** ** Custom values *)

(** C7 (amended): called with the key ["aps"], [SetCustomValue] returns an
    error and leaves the payload as it was; called with any other key,
    ["mdm"] included, on a payload whose map of custom values is
    initialised, it stores the value under the key, changes no other
    entry and returns no error; on a payload whose map is [nil] it
    panics. *)
Theorem SetCustomValue_spec (key : string) (value : GoValue) (p : Payload.t) :
  (key = "aps" ->
   Payload.SetCustomValue key value p
   = Returned (p, Some (errors_New "cannot assign a custom APS value in payload")))
  /\ (key <> "aps" ->
      forall m : gmap string GoValue,
        Payload.CustomValues p = Some m ->
        exists m' : gmap string GoValue,
          Payload.SetCustomValue key value p
          = Returned (Payload.mk (Payload.APS p) (Payload.MDM p) (Some m'), None)
          /\ m' !! key = Some value
          /\ (forall k : string, k <> key -> m' !! k = m !! k))
  /\ (key <> "aps" ->
      Payload.CustomValues p = None ->
      Payload.SetCustomValue key value p
      = Panicked "assignment to entry in nil map").
Proof.
  unfold Payload.SetCustomValue. split; [|split].
  - intros ->. reflexivity.
  - intros Hkey m Hm. apply String.eqb_neq in Hkey. rewrite Hkey, Hm.
    exists (<[key := value]> m). split; [reflexivity|].
    split; [apply lookup_insert_eq|].
    intros k Hk. apply lookup_insert_ne. congruence.
  - intros Hkey Hnil. apply String.eqb_neq in Hkey. now rewrite Hkey, Hnil.
Qed.

Lemma SetCustomValue_spec_sample :
  Payload.SetCustomValue "aps" (VInt 1) NewPayload
  = Returned (NewPayload, Some (errors_New "cannot assign a custom APS value in payload"))
  /\ (exists m' : gmap string GoValue,
        Payload.SetCustomValue "mdm" (VString "x") NewPayload
        = Returned (Payload.mk APS.zero "" (Some m'), None)
        /\ m' !! "mdm" = Some (VString "x")
        /\ (forall k : string, k <> "mdm" -> m' !! k = (∅ : gmap string GoValue) !! k))
  /\ Payload.SetCustomValue "mdm" (VString "x") zero_payload
     = Panicked "assignment to entry in nil map".
Proof.
  split; [|split].
  - destruct (SetCustomValue_spec "aps" (VInt 1) NewPayload) as (H & _ & _).
    apply H. reflexivity.
  - destruct (SetCustomValue_spec "mdm" (VString "x") NewPayload) as (_ & H & _).
    apply (H ltac:(discriminate) ∅). reflexivity.
  - destruct (SetCustomValue_spec "mdm" (VString "x") zero_payload) as (_ & _ & H).
    apply H; [discriminate|reflexivity].
Defined.

(** C7 as stated fails on the zero value [Payload{}]: storing under
    ["mdm"] panics. *)
Lemma set_on_nil_map_panics :
  ~ stores_unless_aps "mdm" (VString "x") zero_payload.
Proof.
  intros [_ H]. destruct H as (p' & m' & Hset & _); [discriminate|].
  discriminate Hset.
Qed.

(** On a payload from [NewPayload] the key ["mdm"] is stored. *)
Example set_mdm_on_new :
  Payload.SetCustomValue "mdm" (VString "x") NewPayload
  = Returned (Payload.mk APS.zero "" (Some {["mdm" := VString "x"]}), None).
Proof.
  unfold Payload.SetCustomValue, NewPayload.
  cbn [String.eqb Ascii.eqb Bool.eqb Payload.CustomValues Payload.APS Payload.MDM].
  now rewrite insert_empty.
Qed.

(** * More properties of the encoder *)

(** ** When [ToBinary] fails *)

(** X1: [ToBinary] returns no error exactly when the token string is an
    even number of hexadecimal digits; nothing else makes it fail, not
    even an error of the marshaller. *)
Theorem ToBinary_succeeds_iff (json_Marshal : marshaller) (n : Notification.t) :
  snd (Notification.ToBinary json_Marshal n) = None
  <-> hex.valid (Notification.DeviceToken n) = true.
Proof.
  rewrite <- DecodeString_valid.
  destruct (hex.DecodeString (Notification.DeviceToken n)) as [tok [cause|]] eqn:Hdec.
  - rewrite (ToBinary_token_error json_Marshal n tok cause Hdec).
    cbn [snd]. split; discriminate.
  - rewrite (ToBinary_layout json_Marshal n tok Hdec). cbn [snd]. tauto.
Qed.

(** ** The size of a frame *)

Lemma DecodeString_length (s : string) :
  hex.valid s = true ->
  List.length (fst (hex.DecodeString s)) = (String.length s / 2)%nat.
Proof.
  induction s as [|p|p q rest IH] using string_pairs_ind;
    cbn [hex.DecodeString hex.valid String.length].
  - reflexivity.
  - discriminate.
  - rewrite !is_digit_fromHexChar.
    destruct (hex.fromHexChar p); [|discriminate].
    destruct (hex.fromHexChar q); [|discriminate].
    cbn [andb]. intros Hrest. specialize (IH Hrest).
    destruct (hex.DecodeString rest) as [bs err]. cbn [fst List.length] in *.
    rewrite IH.
    change (S (S (String.length rest))) with (1 * 2 + String.length rest)%nat.
    now rewrite Nat.div_add_l.
Qed.

Lemma items_length (json_Marshal : marshaller) (n : Notification.t) (tok : list Z) :
  List.length (wire.render_all (items_of json_Marshal n tok))
  = (24 + List.length tok + List.length (payload_json json_Marshal n))%nat.
Proof.
  unfold items_of.
  rewrite !render_all_cons, !length_app, !render_length.
  cbn [wire.item_value]. rewrite !PutUint32_length.
  cbn [wire.render_all map concat List.length]. lia.
Qed.

(** X2: on a valid token the frame holds 29 bytes of headers and fixed
    fields, one byte for every two digits of the token, and the JSON
    bytes. *)
Theorem ToBinary_length (json_Marshal : marshaller) (n : Notification.t) :
  hex.valid (Notification.DeviceToken n) = true ->
  List.length (fst (Notification.ToBinary json_Marshal n))
  = (29 + String.length (Notification.DeviceToken n) / 2
     + List.length (payload_json json_Marshal n))%nat.
Proof.
  intros Hvalid. rewrite <- (DecodeString_length _ Hvalid).
  apply DecodeString_valid in Hvalid.
  destruct (hex.DecodeString (Notification.DeviceToken n)) as [tok err] eqn:Hdec.
  cbn [snd fst] in *. subst err.
  rewrite (ToBinary_layout json_Marshal n tok Hdec). cbn [fst List.length].
  rewrite length_app, PutUint32_length, items_length. lia.
Qed.

Lemma ToBinary_length_sample :
  List.length (fst (Notification.ToBinary marshal_braces sample))
  = (29 + String.length (Notification.DeviceToken sample) / 2
     + List.length (payload_json marshal_braces sample))%nat.
Proof. exact (ToBinary_length marshal_braces sample eq_refl). Defined.

(** ** A payload that cannot be marshalled *)

(** X3: when the marshaller answers no bytes for the payload, as
    [json.Marshal] does with its error, [ToBinary] gives what it gives for
    the same notification with a [nil] payload: the error is dropped and the
    payload item is empty. *)
Theorem marshal_failure_as_nil_payload (json_Marshal : marshaller)
    (n : Notification.t) (p : Payload.t) :
  Notification.Payload n = Some p ->
  fst (Payload.MarshalJSONForAPNS json_Marshal p) = [] ->
  Notification.ToBinary json_Marshal n
  = Notification.ToBinary json_Marshal (without_payload n).
Proof.
  intros Hp Hj. unfold Notification.ToBinary, without_payload.
  cbn [Notification.DeviceToken Notification.Payload Notification.Identifier
       Notification.Expiration Notification.Priority].
  rewrite Hp, Hj. reflexivity.
Qed.

Lemma marshal_failure_as_nil_payload_sample :
  Notification.ToBinary marshal_refuses sample
  = Notification.ToBinary marshal_refuses (without_payload sample).
Proof.
  exact (marshal_failure_as_nil_payload marshal_refuses sample NewPayload
           eq_refl eq_refl).
Defined.

(** ** Notifications with the same frame *)

Lemma uint32_congr (a b : Z) :
  a mod 2 ^ 32 = b mod 2 ^ 32 -> binary.uint32 a = binary.uint32 b.
Proof. intros H. exact H. Qed.

(** X4: the output depends on the notification only through the result
    of decoding the token, the JSON bytes, the identifier and the
    expiration seconds modulo [2^32] (no expiration counting as 0 seconds)
    and the priority modulo [2^8]: two notifications that agree on these
    get the same output, whatever their IDs and the spelling of their
    tokens. *)
Theorem ToBinary_congruence (m1 m2 : marshaller) (n1 n2 : Notification.t) :
  hex.DecodeString (Notification.DeviceToken n1)
  = hex.DecodeString (Notification.DeviceToken n2) ->
  payload_json m1 n1 = payload_json m2 n2 ->
  Notification.Identifier n1 mod 2 ^ 32 = Notification.Identifier n2 mod 2 ^ 32 ->
  expiration_seconds n1 mod 2 ^ 32 = expiration_seconds n2 mod 2 ^ 32 ->
  Notification.Priority n1 mod 2 ^ 8 = Notification.Priority n2 mod 2 ^ 8 ->
  Notification.ToBinary m1 n1 = Notification.ToBinary m2 n2.
Proof.
  intros Htok Hjson Hid Hexp Hprio.
  destruct (hex.DecodeString (Notification.DeviceToken n2)) as [tok [cause|]] eqn:Hdec.
  - rewrite (ToBinary_token_error m1 n1 tok cause Htok).
    now rewrite (ToBinary_token_error m2 n2 tok cause Hdec).
  - rewrite (ToBinary_layout m1 n1 tok Htok), (ToBinary_layout m2 n2 tok Hdec).
    cbv zeta. unfold items_of. cbv zeta.
    rewrite Hjson.
    rewrite (uint32_congr _ _ Hid), (uint32_congr _ _ Hexp).
    unfold binary.uint8. rewrite Hprio. reflexivity.
Qed.

Lemma ToBinary_congruence_sample :
  Notification.ToBinary marshal_braces sample
  = Notification.ToBinary marshal_braces sample_alias.
Proof.
  exact (ToBinary_congruence marshal_braces marshal_braces sample sample_alias
           eq_refl eq_refl eq_refl eq_refl eq_refl).
Defined.

(** For a 32-byte token and JSON shorter than [2^16] bytes the frame is
    read back as the five items that were written. *)
Lemma parse_frame_items_of (json_Marshal : marshaller)
    (n : Notification.t) (tok : list Z) :
  hex.DecodeString (Notification.DeviceToken n) = (tok, None) ->
  List.length tok = 32%nat ->
  Z.of_nat (List.length (payload_json json_Marshal n)) < 2 ^ 16 ->
  wire.parse_frame (fst (Notification.ToBinary json_Marshal n))
  = Some (2, items_of json_Marshal n tok).
Proof.
  intros Hdec Htok Hjson.
  rewrite (ToBinary_layout json_Marshal n tok Hdec). cbn [fst].
  pose proof (items_length json_Marshal n tok) as Hlen.
  set (items := wire.render_all (items_of json_Marshal n tok)) in *.
  unfold wire.parse_frame, binary.PutUint32. cbn [app].
  fold (binary.PutUint32 (binary.uint32 (Z.of_nat (List.length items)))).
  rewrite Uint32_PutUint32_small by (apply Z.mod_pos_bound; lia).
  rewrite uint32_small by lia. rewrite Z.eqb_refl.
  subst items. rewrite parse_items_render_all; [reflexivity|].
  unfold items_of, well_sized.
  repeat constructor; cbn [wire.item_length wire.item_value]; try lia.
  - apply Z.mod_pos_bound. lia.
  - apply Z.mod_pos_bound. lia.
  - symmetry. apply uint16_small. lia.
Qed.

Lemma PutUint32_inj (a b : Z) :
  binary.PutUint32 a = binary.PutUint32 b -> a mod 2 ^ 32 = b mod 2 ^ 32.
Proof. intros H. now rewrite <- !Uint32_PutUint32, H. Qed.

(** X5: for tokens of 32 bytes and JSON shorter than [2^16] bytes the
    frame tells notifications apart as far as it can: two notifications
    with the same frame have the same token bytes, the same JSON bytes, and
    the same identifier and expiration seconds modulo [2^32] and priority
    modulo [2^8]. *)
Theorem ToBinary_injective (m1 m2 : marshaller) (n1 n2 : Notification.t)
    (tok1 tok2 : list Z) :
  hex.DecodeString (Notification.DeviceToken n1) = (tok1, None) ->
  hex.DecodeString (Notification.DeviceToken n2) = (tok2, None) ->
  List.length tok1 = 32%nat ->
  List.length tok2 = 32%nat ->
  Z.of_nat (List.length (payload_json m1 n1)) < 2 ^ 16 ->
  Z.of_nat (List.length (payload_json m2 n2)) < 2 ^ 16 ->
  fst (Notification.ToBinary m1 n1) = fst (Notification.ToBinary m2 n2) ->
  tok1 = tok2
  /\ payload_json m1 n1 = payload_json m2 n2
  /\ Notification.Identifier n1 mod 2 ^ 32 = Notification.Identifier n2 mod 2 ^ 32
  /\ expiration_seconds n1 mod 2 ^ 32 = expiration_seconds n2 mod 2 ^ 32
  /\ Notification.Priority n1 mod 2 ^ 8 = Notification.Priority n2 mod 2 ^ 8.
Proof.
  intros Hdec1 Hdec2 Hlen1 Hlen2 Hj1 Hj2 Hframe.
  pose proof (parse_frame_items_of m1 n1 tok1 Hdec1 Hlen1 Hj1) as Hp1.
  pose proof (parse_frame_items_of m2 n2 tok2 Hdec2 Hlen2 Hj2) as Hp2.
  rewrite Hframe, Hp2 in Hp1. unfold items_of in Hp1.
  remember (binary.PutUint32 (binary.uint32 (Notification.Identifier n1))) as i1.
  remember (binary.PutUint32 (binary.uint32 (Notification.Identifier n2))) as i2.
  remember (binary.PutUint32 (binary.uint32 (expiration_seconds n1))) as e1.
  remember (binary.PutUint32 (binary.uint32 (expiration_seconds n2))) as e2.
  injection Hp1 as Htok _ Hjson Hid Hexp Hprio. subst i1 i2 e1 e2.
  apply PutUint32_inj in Hid, Hexp.
  unfold binary.uint32 in Hid, Hexp. rewrite !Z.mod_mod in Hid, Hexp by lia.
  unfold binary.uint8 in Hprio. repeat split; congruence.
Qed.

Lemma ToBinary_injective_sample :
  bytes32 = bytes32
  /\ payload_json marshal_braces sample = payload_json marshal_braces sample_alias
  /\ Notification.Identifier sample mod 2 ^ 32
     = Notification.Identifier sample_alias mod 2 ^ 32
  /\ expiration_seconds sample mod 2 ^ 32 = expiration_seconds sample_alias mod 2 ^ 32
  /\ Notification.Priority sample mod 2 ^ 8 = Notification.Priority sample_alias mod 2 ^ 8.
Proof.
  exact (ToBinary_injective marshal_braces marshal_braces sample sample_alias
           bytes32 bytes32 eq_refl eq_refl eq_refl eq_refl eq_refl eq_refl eq_refl).
Defined.

(** ** The payload and identifier items *)

Lemma skipn_app_exact (l rest : list Z) : skipn (List.length l) (l ++ rest) = rest.
Proof. now rewrite skipn_app, Nat.sub_diag, skipn_all. Qed.

(** The item buffer starts with the token item and the payload item. *)
Lemma frame_items_head (json_Marshal : marshaller) (n : Notification.t)
    (tok : list Z) :
  hex.DecodeString (Notification.DeviceToken n) = (tok, None) ->
  exists rest : list Z,
    wire.frame_items (fst (Notification.ToBinary json_Marshal n))
    = ([1; 0; 32] ++ tok)
      ++ (2 :: binary.PutUint16
                 (binary.uint16 (Z.of_nat (List.length (payload_json json_Marshal n))))
            ++ payload_json json_Marshal n)
      ++ rest.
Proof.
  intros Hdec. rewrite (ToBinary_layout json_Marshal n tok Hdec). cbn [fst].
  rewrite frame_items_layout. unfold items_of. cbv zeta.
  match goal with
  | |- context [wire.render_all [?i1; ?i2; ?i3; ?i4; ?i5]] =>
      change [i1; i2; i3; i4; i5] with ([i1; i2] ++ [i3; i4; i5]);
      exists (wire.render_all [i3; i4; i5])
  end.
  rewrite render_all_app. set (tail := wire.render_all [_; _; _]).
  unfold wire.render_all, wire.render.
  cbn [map concat wire.item_id wire.item_length wire.item_value].
  rewrite (PutUint16_small 32) by lia.
  rewrite app_nil_r, <- !app_assoc. reflexivity.
Qed.

(** X6: on a token that decodes, the payload item follows the token
    bytes with ID 2, the JSON bytes as its value, and a length field that
    is the number of JSON bytes modulo [2^16]: it is their number exactly
    when they are fewer than [2^16]. *)
Theorem payload_item_fields (json_Marshal : marshaller)
    (n : Notification.t) (tok : list Z) :
  hex.DecodeString (Notification.DeviceToken n) = (tok, None) ->
  let f := fst (Notification.ToBinary json_Marshal n) in
  let j := payload_json json_Marshal n in
  payload_item_id (List.length tok) f = 2
  /\ payload_item_length (List.length tok) f = Z.of_nat (List.length j) mod 2 ^ 16
  /\ payload_item_value (List.length tok) (List.length j) f = j
  /\ (payload_item_length (List.length tok) f = Z.of_nat (List.length j)
      <-> Z.of_nat (List.length j) < 2 ^ 16).
Proof.
  intros Hdec f j. subst f.
  destruct (frame_items_head json_Marshal n tok Hdec) as [rest Hitems].
  unfold payload_item_id, payload_item_length, payload_item_value, payload_item.
  rewrite Hitems. fold j.
  change (3 + List.length tok)%nat with (List.length ([1; 0; 32] ++ tok)).
  rewrite skipn_app_exact.
  set (v := binary.uint16 (Z.of_nat (List.length j))).
  change (skipn 3 ((2 :: binary.PutUint16 v ++ j) ++ rest)) with (j ++ rest).
  change (firstn 2 (skipn 1 ((2 :: binary.PutUint16 v ++ j) ++ rest)))
    with (binary.PutUint16 v).
  subst v.
  rewrite Uint16_PutUint16. unfold binary.uint16. rewrite Z.mod_mod by lia.
  split; [reflexivity|]. split; [reflexivity|]. split; [apply firstn_app_exact|].
  split.
  - intros <-. apply Z.mod_pos_bound. lia.
  - intros Hsmall. apply Z.mod_small. lia.
Qed.

Lemma payload_item_fields_sample :
  let f := fst (Notification.ToBinary marshal_braces sample) in
  let j := payload_json marshal_braces sample in
  payload_item_id (List.length bytes32) f = 2
  /\ payload_item_length (List.length bytes32) f = Z.of_nat (List.length j) mod 2 ^ 16
  /\ payload_item_value (List.length bytes32) (List.length j) f = j
  /\ (payload_item_length (List.length bytes32) f = Z.of_nat (List.length j)
      <-> Z.of_nat (List.length j) < 2 ^ 16).
Proof. exact (payload_item_fields marshal_braces sample bytes32 eq_refl). Defined.

(** The frame ends with the identifier, expiration and priority
    items. *)
Lemma ToBinary_tail3 (json_Marshal : marshaller) (n : Notification.t)
    (tok : list Z) :
  hex.DecodeString (Notification.DeviceToken n) = (tok, None) ->
  exists pre : list Z,
    fst (Notification.ToBinary json_Marshal n)
    = pre ++ ([3; 0; 4] ++ binary.PutUint32 (binary.uint32 (Notification.Identifier n)))
          ++ ([4; 0; 4] ++ binary.PutUint32 (binary.uint32 (expiration_seconds n)))
          ++ [5; 0; 1; binary.uint8 (Notification.Priority n)].
Proof.
  intros Hdec. rewrite (ToBinary_layout json_Marshal n tok Hdec). cbn [fst].
  unfold items_of.
  change [?i1; ?i2; ?i3; ?i4; ?i5] with ([i1; i2] ++ [i3; i4; i5]).
  rewrite render_all_app.
  set (head := wire.render_all [_; _]). set (L := binary.uint32 _).
  exists (2 :: binary.PutUint32 L ++ head).
  unfold wire.render_all, wire.render.
  cbn [map concat wire.item_id wire.item_length wire.item_value].
  rewrite (PutUint16_small 4), (PutUint16_small 1) by lia.
  rewrite app_nil_r, <- !app_assoc. reflexivity.
Qed.

(** X7: on a token that decodes, the identifier item is [03 00 04]
    and four bytes, the big-endian number of the identifier modulo [2^32]:
    of the identifier itself when it is a [uint32], as its type says. *)
Theorem identifier_item_fields (json_Marshal : marshaller)
    (n : Notification.t) (tok : list Z) :
  hex.DecodeString (Notification.DeviceToken n) = (tok, None) ->
  let f := fst (Notification.ToBinary json_Marshal n) in
  firstn 3 (identifier_item f) = [3; 0; 4]
  /\ List.length (identifier_value f) = 4%nat
  /\ Forall wire.is_byte (identifier_value f)
  /\ wire.Uint32 (identifier_value f) = Notification.Identifier n mod 2 ^ 32
  /\ (0 <= Notification.Identifier n < 2 ^ 32 ->
      wire.Uint32 (identifier_value f) = Notification.Identifier n).
Proof.
  intros Hdec f. subst f.
  destruct (ToBinary_tail3 json_Marshal n tok Hdec) as [pre ->].
  unfold identifier_value, identifier_item.
  rewrite from_end_app by reflexivity.
  set (v := binary.PutUint32 (binary.uint32 (Notification.Identifier n))).
  rewrite (firstn_app_exact ([3; 0; 4] ++ v)).
  change (skipn 3 ([3; 0; 4] ++ v)) with v. subst v.
  split; [reflexivity|]. split; [apply PutUint32_length|].
  split; [apply PutUint32_bytes|].
  rewrite Uint32_PutUint32. unfold binary.uint32. rewrite Z.mod_mod by lia.
  split; [reflexivity|]. intros Hid. now apply Z.mod_small.
Qed.

Lemma identifier_item_fields_sample :
  let f := fst (Notification.ToBinary marshal_braces sample) in
  firstn 3 (identifier_item f) = [3; 0; 4]
  /\ List.length (identifier_value f) = 4%nat
  /\ Forall wire.is_byte (identifier_value f)
  /\ wire.Uint32 (identifier_value f) = Notification.Identifier sample mod 2 ^ 32
  /\ (0 <= Notification.Identifier sample < 2 ^ 32 ->
      wire.Uint32 (identifier_value f) = Notification.Identifier sample).
Proof. exact (identifier_item_fields marshal_braces sample bytes32 eq_refl). Defined.

(** * More properties of payloads *)

(** ** Setting custom values *)

(** X8: setting a key twice keeps the second value only: after a call
    that returned, a second call with the same key does what it would have
    done on the payload as it was before the first. *)
Theorem SetCustomValue_overwrite (key : string) (v1 v2 : GoValue)
    (p p1 : Payload.t) (e1 : option GoError) :
  Payload.SetCustomValue key v1 p = Returned (p1, e1) ->
  Payload.SetCustomValue key v2 p1 = Payload.SetCustomValue key v2 p.
Proof.
  unfold Payload.SetCustomValue.
  destruct (String.eqb key "aps").
  - intros [= <- _]. reflexivity.
  - destruct (Payload.CustomValues p) as [m|]; [|discriminate].
    intros [= <- _]. cbn [Payload.CustomValues Payload.APS Payload.MDM].
    now rewrite insert_insert_eq.
Qed.

Lemma SetCustomValue_overwrite_sample :
  Payload.SetCustomValue "acme" (VInt 2)
    (Payload.mk APS.zero "" (Some (<["acme" := VInt 1]> ∅)))
  = Payload.SetCustomValue "acme" (VInt 2) NewPayload.
Proof.
  exact (SetCustomValue_overwrite "acme" (VInt 1) (VInt 2) NewPayload _ None eq_refl).
Defined.

(** X9: calls with different keys can be swapped: if setting [k1] and
    then [k2] returns, so does setting [k2] and then [k1], with the same
    errors and the same payload in the end. *)
Theorem SetCustomValue_commute (k1 k2 : string) (v1 v2 : GoValue)
    (p p1 p12 : Payload.t) (e1 e2 : option GoError) :
  k1 <> k2 ->
  Payload.SetCustomValue k1 v1 p = Returned (p1, e1) ->
  Payload.SetCustomValue k2 v2 p1 = Returned (p12, e2) ->
  exists p2 : Payload.t,
    Payload.SetCustomValue k2 v2 p = Returned (p2, e2)
    /\ Payload.SetCustomValue k1 v1 p2 = Returned (p12, e1).
Proof.
  intros Hne. unfold Payload.SetCustomValue.
  destruct (String.eqb k1 "aps") eqn:H1; destruct (String.eqb k2 "aps") eqn:H2.
  - apply String.eqb_eq in H1, H2. congruence.
  - intros [= <- <-]. destruct (Payload.CustomValues p) as [m|]; [|discriminate].
    intros [= <- <-]. eexists. split; reflexivity.
  - destruct (Payload.CustomValues p) as [m|] eqn:Hm; [|discriminate].
    intros [= <- <-] [= <- <-]. exists p. split; [reflexivity|].
    now rewrite Hm.
  - destruct (Payload.CustomValues p) as [m|]; [|discriminate].
    intros [= <- <-]. cbn [Payload.CustomValues Payload.APS Payload.MDM].
    intros [= <- <-]. eexists. split; [reflexivity|].
    cbn [Payload.CustomValues Payload.APS Payload.MDM].
    now rewrite insert_insert_ne.
Qed.

Lemma SetCustomValue_commute_sample :
  exists p2 : Payload.t,
    Payload.SetCustomValue "b" (VInt 2) NewPayload = Returned (p2, None)
    /\ Payload.SetCustomValue "a" (VInt 1) p2
       = Returned (Payload.mk APS.zero ""
                     (Some (<["b" := VInt 2]> (<["a" := VInt 1]> ∅))), None).
Proof.
  exact (SetCustomValue_commute "a" "b" (VInt 1) (VInt 2) NewPayload _ _ None None
           ltac:(discriminate) eq_refl eq_refl).
Defined.

(** [SetCustomValue] leaves the mode of the payload alone. *)
Lemma SetCustomValue_fields (key : string) (value : GoValue)
    (p p' : Payload.t) (err : option GoError) :
  Payload.SetCustomValue key value p = Returned (p', err) ->
  Payload.APS p' = Payload.APS p /\ Payload.MDM p' = Payload.MDM p.
Proof.
  unfold Payload.SetCustomValue. destruct (String.eqb key "aps").
  - intros [= <- _]. now split.
  - destruct (Payload.CustomValues p); [|discriminate].
    intros [= <- _]. now split.
Qed.

Lemma serializeForAPNS_insert (p : Payload.t) :
  Payload.serializeForAPNS p
  = <[mode_key p :=
        if negb (strlen (Payload.MDM p) =? 0) then VString (Payload.MDM p)
        else VMap (APS.serializeForAPNS (Payload.APS p))]> (custom_values p).
Proof.
  unfold Payload.serializeForAPNS, mode_key. cbv zeta.
  rewrite range_assign_custom.
  now destruct (negb (strlen (Payload.MDM p) =? 0)).
Qed.

Lemma mode_key_cases (p : Payload.t) : mode_key p = "mdm" \/ mode_key p = "aps".
Proof.
  unfold mode_key. destruct (negb (strlen (Payload.MDM p) =? 0)); [now left|now right].
Qed.

(** X10: a value stored by [SetCustomValue] under a key other than
    ["aps"] and ["mdm"] is serialized under that key, and the rest of the
    serialized mapping is as it was before the call. *)
Theorem set_then_serialize (key : string) (value : GoValue)
    (p p' : Payload.t) (err : option GoError) :
  key <> "aps" ->
  key <> "mdm" ->
  Payload.SetCustomValue key value p = Returned (p', err) ->
  err = None
  /\ Payload.serializeForAPNS p' !! key = Some value
  /\ (forall k : string,
        k <> key ->
        Payload.serializeForAPNS p' !! k = Payload.serializeForAPNS p !! k).
Proof.
  intros Haps Hmdm Hset.
  assert (Hmode : mode_key p' = mode_key p).
  { destruct (SetCustomValue_fields _ _ _ _ _ Hset) as [_ HM].
    unfold mode_key. now rewrite HM. }
  assert (Hkey : mode_key p <> key).
  { destruct (mode_key_cases p) as [-> | ->]; congruence. }
  rewrite !serializeForAPNS_insert, Hmode.
  destruct (SetCustomValue_fields _ _ _ _ _ Hset) as [-> ->].
  unfold Payload.SetCustomValue in Hset.
  apply String.eqb_neq in Haps. rewrite Haps in Hset.
  destruct (Payload.CustomValues p) as [m|] eqn:Hm; [|discriminate].
  injection Hset as <- <-.
  unfold custom_values. cbn [Payload.CustomValues]. rewrite Hm.
  split; [reflexivity|]. split.
  - rewrite lookup_insert_ne by exact Hkey. apply lookup_insert_eq.
  - intros k Hk. destruct (string_dec (mode_key p) k) as [<-|Hmk].
    + now rewrite !lookup_insert_eq.
    + rewrite !(lookup_insert_ne _ (mode_key p)) by exact Hmk.
      apply lookup_insert_ne. congruence.
Qed.

Lemma set_then_serialize_sample :
  @None GoError = None
  /\ Payload.serializeForAPNS
       (Payload.mk APS.zero "" (Some (<["acme" := VInt 1]> ∅))) !! "acme"
     = Some (VInt 1)
  /\ (forall k : string,
        k <> "acme" ->
        Payload.serializeForAPNS
          (Payload.mk APS.zero "" (Some (<["acme" := VInt 1]> ∅))) !! k
        = Payload.serializeForAPNS NewPayload !! k).
Proof.
  exact (set_then_serialize "acme" (VInt 1) NewPayload _ None
           ltac:(discriminate) ltac:(discriminate) eq_refl).
Defined.

(** X11: [SetCustomValue] takes the key ["mdm"].  On a payload without
    an MDM string the value is then serialized under ["mdm"] next to the
    ["aps"] mapping; on a payload with an MDM string the string is
    serialized in its place. *)
Theorem custom_mdm_serialized (value : GoValue) (p p' : Payload.t)
    (err : option GoError) :
  Payload.SetCustomValue "mdm" value p = Returned (p', err) ->
  err = None
  /\ (Payload.MDM p = "" ->
      Payload.serializeForAPNS p' !! "mdm" = Some value
      /\ Payload.serializeForAPNS p' !! "aps"
         = Some (VMap (APS.serializeForAPNS (Payload.APS p))))
  /\ (Payload.MDM p <> "" ->
      Payload.serializeForAPNS p' !! "mdm" = Some (VString (Payload.MDM p))).
Proof.
  intros Hset.
  destruct (SetCustomValue_fields _ _ _ _ _ Hset) as [HA HM].
  unfold Payload.SetCustomValue in Hset. cbn [String.eqb Ascii.eqb Bool.eqb] in Hset.
  destruct (Payload.CustomValues p) as [m|] eqn:Hm; [|discriminate].
  injection Hset as <- <-. cbn [Payload.MDM Payload.APS] in *.
  split; [reflexivity|]. split.
  - intros Hempty. rewrite serializeForAPNS_aps by exact Hempty.
    unfold custom_values. cbn [Payload.CustomValues Payload.APS].
    rewrite lookup_insert_eq, lookup_insert_ne by discriminate.
    now rewrite lookup_insert_eq.
  - intros Hmdm. rewrite serializeForAPNS_mdm by exact Hmdm.
    cbn [Payload.MDM]. apply lookup_insert_eq.
Qed.

Lemma custom_mdm_serialized_sample :
  @None GoError = None
  /\ (Payload.MDM NewPayload = "" ->
      Payload.serializeForAPNS
        (Payload.mk APS.zero "" (Some (<["mdm" := VString "x"]> ∅))) !! "mdm"
      = Some (VString "x")
      /\ Payload.serializeForAPNS
           (Payload.mk APS.zero "" (Some (<["mdm" := VString "x"]> ∅))) !! "aps"
         = Some (VMap (APS.serializeForAPNS (Payload.APS NewPayload))))
  /\ (Payload.MDM NewPayload <> "" ->
      Payload.serializeForAPNS
        (Payload.mk APS.zero "" (Some (<["mdm" := VString "x"]> ∅))) !! "mdm"
      = Some (VString (Payload.MDM NewPayload))).
Proof. exact (custom_mdm_serialized (VString "x") NewPayload _ None eq_refl). Defined.

(** ** Payloads made by [NewPayload] *)

(** X12: on a payload made by [NewPayload] and changed through
    [SetCustomValue] and the fields [APS] and [MDM] only, [SetCustomValue]
    never panics: it returns, with an error exactly for the key ["aps"],
    and leaves such a payload again. *)
Theorem built_accepts (key : string) (value : GoValue) (p : Payload.t) :
  built p ->
  exists p' : Payload.t,
    Payload.SetCustomValue key value p
    = Returned (p', if String.eqb key "aps"
                    then Some (errors_New "cannot assign a custom APS value in payload")
                    else None)
    /\ built p'.
Proof.
  intros Hp. destruct (built_no_custom_aps p Hp) as (m & Hm & _).
  assert (Hret : exists r, Payload.SetCustomValue key value p = Returned r
                           /\ snd r = if String.eqb key "aps"
                                      then Some (errors_New "cannot assign a custom APS value in payload")
                                      else None).
  { unfold Payload.SetCustomValue. rewrite Hm.
    destruct (String.eqb key "aps"); eexists; split; reflexivity. }
  destruct Hret as ([p' err] & Hset & Herr). cbn [snd] in Herr. subst err.
  exists p'. split; [exact Hset|]. exact (built_set p p' key value _ Hp Hset).
Qed.

Lemma built_accepts_new :
  exists p' : Payload.t,
    Payload.SetCustomValue "mdm" (VString "x") NewPayload = Returned (p', None)
    /\ built p'.
Proof. exact (built_accepts "mdm" (VString "x") NewPayload built_new). Defined.

(** X13: for a payload made by [NewPayload] and changed through
    [SetCustomValue] and the fields [APS] and [MDM] only, the two modes
    exclude each other: with an MDM string the serialized mapping has
    ["mdm"] bound to it and no ["aps"] key, whatever the APS value; without
    one it has the ["aps"] mapping. *)
Theorem built_payload_modes (p : Payload.t) :
  built p ->
  let data := Payload.serializeForAPNS p in
  (Payload.MDM p <> "" ->
   data !! "mdm" = Some (VString (Payload.MDM p)) /\ data !! "aps" = None)
  /\ (Payload.MDM p = "" ->
      data !! "aps" = Some (VMap (APS.serializeForAPNS (Payload.APS p)))).
Proof. intros Hp. exact (built_mdm_excludes_aps p Hp). Qed.

Lemma built_payload_modes_sample :
  let p := Payload.mk sound_only "X" (Some (<["acme" := VInt 1]> ∅)) in
  let data := Payload.serializeForAPNS p in
  (Payload.MDM p <> "" ->
   data !! "mdm" = Some (VString (Payload.MDM p)) /\ data !! "aps" = None)
  /\ (Payload.MDM p = "" ->
      data !! "aps" = Some (VMap (APS.serializeForAPNS (Payload.APS p)))).
Proof.
  exact (built_payload_modes _
           (built_fields _ sound_only "X"
              (built_set NewPayload _ "acme" (VInt 1) None built_new eq_refl))).
Defined.

(** ** The keys of the serialized payload *)

(** X14: the serialized payload has every key of the custom values and
    one key more for its mode, ["mdm"] with an MDM string and ["aps"]
    without: no custom key is lost, whether or not its value is
    replaced. *)
Theorem payload_keys (p : Payload.t) :
  dom (Payload.serializeForAPNS p) = {[mode_key p]} ∪ dom (custom_values p)
  /\ (mode_key p = "mdm" <-> Payload.MDM p <> "")
  /\ (mode_key p = "aps" <-> Payload.MDM p = "").
Proof.
  split.
  - rewrite serializeForAPNS_insert. apply dom_insert_L.
  - unfold mode_key. destruct (strlen (Payload.MDM p) =? 0) eqn:E; cbn [negb].
    + apply strlen_zero in E. split; split; intros H; try congruence; try discriminate.
    + assert (Payload.MDM p <> "") by (intros H; apply strlen_zero in H; congruence).
      split; split; intros H'; try congruence; try discriminate; reflexivity.
Qed.

(** X15: a payload without custom values, its map [nil] as in the zero
    value or empty as [NewPayload] makes it, serializes to one entry: the
    MDM string under ["mdm"], or the ["aps"] mapping under ["aps"]. *)
Theorem serialize_without_customs (p : Payload.t) :
  custom_values p = ∅ ->
  (Payload.MDM p <> "" ->
   Payload.serializeForAPNS p = {["mdm" := VString (Payload.MDM p)]})
  /\ (Payload.MDM p = "" ->
      Payload.serializeForAPNS p
      = {["aps" := VMap (APS.serializeForAPNS (Payload.APS p))]}).
Proof.
  intros Hnone. split; intros Hmdm.
  - rewrite (serializeForAPNS_mdm p Hmdm), Hnone. apply insert_empty.
  - rewrite (serializeForAPNS_aps p Hmdm), Hnone. apply insert_empty.
Qed.

Lemma serialize_without_customs_zero :
  (Payload.MDM zero_payload <> "" ->
   Payload.serializeForAPNS zero_payload
   = {["mdm" := VString (Payload.MDM zero_payload)]})
  /\ (Payload.MDM zero_payload = "" ->
      Payload.serializeForAPNS zero_payload
      = {["aps" := VMap (APS.serializeForAPNS (Payload.APS zero_payload))]}).
Proof. exact (serialize_without_customs zero_payload eq_refl). Defined.

(** ** The empty ["aps"] mapping *)

(** X16: the ["aps"] mapping is empty exactly when every field of the
    APS value is at its default: the alert empty, no badge, no sound,
    content-available 0, no category and no URL argument. *)
Theorem aps_empty_iff (aps : APS.t) :
  APS.serializeForAPNS aps = ∅
  <-> Alert.isZero (APS.Alert aps) = true
      /\ APS.Badge aps = None
      /\ APS.Sound aps = ""
      /\ APS.ContentAvailable aps = 0
      /\ APS.Category aps = ""
      /\ len (APS.URLArgs aps) = 0.
Proof.
  split.
  - intros Hempty.
    pose proof (lookup_alert aps) as Ha.
    pose proof (lookup_badge aps) as Hb.
    pose proof (lookup_sound aps) as Hs.
    pose proof (lookup_content_available aps) as Hc.
    pose proof (lookup_category aps) as Hg.
    pose proof (lookup_url_args aps) as Hu.
    rewrite Hempty, lookup_empty in Ha, Hb, Hs, Hc, Hg, Hu.
    destruct (Alert.isZero (APS.Alert aps)); [|discriminate].
    destruct (APS.Badge aps); [discriminate|].
    destruct (String.eqb (APS.Sound aps) "") eqn:Es; [|discriminate].
    destruct (APS.ContentAvailable aps =? 0) eqn:Ec; [|discriminate].
    destruct (String.eqb (APS.Category aps) "") eqn:Eg; [|discriminate].
    destruct (len (APS.URLArgs aps) =? 0) eqn:Eu; [|discriminate].
    apply String.eqb_eq in Es, Eg. apply Z.eqb_eq in Ec, Eu. tauto.
  - intros (Ha & Hb & Hs & Hc & Hg & Hu).
    apply map_eq. intros k. rewrite lookup_empty.
    destruct (in_dec string_dec k aps_keys) as [Hin|Hout];
      [|now apply lookup_other].
    unfold aps_keys in Hin. cbn [In] in Hin.
    destruct Hin as [<-|[<-|[<-|[<-|[<-|[<-|[]]]]]]].
    + now rewrite lookup_alert, Ha.
    + now rewrite lookup_badge, Hb.
    + now rewrite lookup_sound, Hs.
    + now rewrite lookup_content_available, Hc.
    + now rewrite lookup_category, Hg.
    + now rewrite lookup_url_args, Hu.
Qed.
